(** * The search slice of the launcher's renderer store

    A shallow embedding of [src/renderer/store/search/slice.ts]: the
    registry of result views, the per-view result cache and the reducers
    that mutate them.  Reducers are pure functions on the state; the
    messages a reducer sends to the back end and its writes to the shared
    preferences are returned next to the new state. *)

From Stdlib Require Import ZArith.
From stdpp Require Import gmap strings list fin_maps sorting.

Local Open Scope Z_scope.

(** ** What the slice imports

    The slice reads a handful of types, one constant and two constructor
    functions whose declarations live in other modules
    ([@shared/back/types], [@shared/constants], [@shared/search/util],
    [flashpoint-launcher]).  They are collected in one interface. *)

Class Shared := {
  (** element type of [PageKeyset] *)
  Cursor : Type;
  (** JavaScript truthiness of a keyset element, as tested by
      [view.data.keyset[i-1]] in a condition *)
  truthy : Cursor → bool;
  (** [ViewGame] and the [id] field read by [movePlaylistGame] *)
  ViewGame : Type;
  vg_id : ViewGame → string;
  Game : Type;
  game_id : Game → string;
  AdvancedFilter : Type;
  getDefaultAdvancedFilter : option string → AdvancedFilter;
  (** the fields of [getDefaultGameSearch()] that the slice never sets *)
  GameSearch : Type;
  getDefaultGameSearch : GameSearch;
  ElementPosition : Type;
  (** the fields of a [Playlist] other than [games] *)
  PlaylistInfo : Type;
  SearchDropdownDataSet : Type;
  initialDropdowns : SearchDropdownDataSet;
  VIEW_PAGE_SIZE : N
}.

Definition GENERAL_VIEW_ID : string := "!general!".

Inductive RequestState : Set :=
  | WAITING    (* Request is waiting to be made. *)
  | REQUESTED  (* Request has been made. *)
  | RECEIVED.  (* Response has been received. *)

#[global] Instance RequestState_eq_dec : EqDecision RequestState.
Proof. solve_decision. Defined.

Section Slice.
Context `{Shared}.

(** ** Data model *)

(** Modelled from the spec: the declaration of [PageKeyset] is not part of
    the sources; the spec describes it as an ordered sequence of opaque
    cursor values, [keyset[i]] being the cursor of page [i+1]. *)
Definition PageKeyset : Type := list Cursor.

(** [games] and [pages] are JavaScript objects keyed by numbers.  Offsets
    and page numbers are natural numbers here: those are the keys an
    object enumerates in ascending order. *)
Record ResultsViewData := {
  searchId : Z;
  games : gmap N ViewGame;
  total : option Z;
  pages : gmap N RequestState;
  keyset : PageKeyset;
  metaState : RequestState
}.

Record SearchAddDataActionData := {
  ad_searchId : Z;
  ad_page : option N;
  ad_games : option (list ViewGame);
  ad_total : option Z;
  ad_pages : option (gmap N RequestState);
  ad_keyset : option PageKeyset
}.

Record PlaylistGame := { gameId : string; notes : string }.

Record Playlist := { pl_games : list PlaylistGame; pl_info : PlaylistInfo }.

Record SearchQuery := {
  sq_base : GameSearch;
  viewId : string;
  sq_searchId : Z;
  sq_page : Z;
  sq_offset : option Cursor
}.

Record ResultsView := {
  id : string;
  library : option string;
  selectedGame : option Game;
  selectedPlaylist : option Playlist;
  data : ResultsViewData;
  orderBy : string;
  orderReverse : string;
  text : string;
  textPositions : list ElementPosition;
  advancedFilter : AdvancedFilter;
  searchFilter : SearchQuery;
  loaded : bool;
  expanded : bool;
  gridScrollCol : option Z;
  gridScrollRow : option Z;
  gridScrollTop : option Z;
  listScrollRow : option Z
}.

Record StoredView := {
  sv_view : string;
  sv_text : string;
  sv_advancedFilter : AdvancedFilter;
  sv_orderBy : string;
  sv_orderReverse : string;
  sv_expanded : bool
}.

Record SearchState := {
  views : gmap string ResultsView;
  dropdowns : SearchDropdownDataSet
}.

(** The part of [window.Shared.preferences.data] the reducers touch. *)
Record Preferences := {
  customViews : list string;
  loadViewsText : bool
}.

(** Messages handed to [window.Shared.back.send]. *)
Inductive BackMsg :=
  | BROWSE_VIEW_PAGE (q : SearchQuery)
  | SAVE_PLAYLIST (p : Playlist).

(** ** Field updates *)

Definition set_data (d : ResultsViewData) (v : ResultsView) : ResultsView :=
  {| id := id v; library := library v; selectedGame := selectedGame v;
     selectedPlaylist := selectedPlaylist v; data := d;
     orderBy := orderBy v; orderReverse := orderReverse v; text := text v;
     textPositions := textPositions v; advancedFilter := advancedFilter v;
     searchFilter := searchFilter v; loaded := loaded v;
     expanded := expanded v; gridScrollCol := gridScrollCol v;
     gridScrollRow := gridScrollRow v; gridScrollTop := gridScrollTop v;
     listScrollRow := listScrollRow v |}.

Definition set_id (i : string) (v : ResultsView) : ResultsView :=
  {| id := i; library := library v; selectedGame := selectedGame v;
     selectedPlaylist := selectedPlaylist v; data := data v;
     orderBy := orderBy v; orderReverse := orderReverse v; text := text v;
     textPositions := textPositions v; advancedFilter := advancedFilter v;
     searchFilter := searchFilter v; loaded := loaded v;
     expanded := expanded v; gridScrollCol := gridScrollCol v;
     gridScrollRow := gridScrollRow v; gridScrollTop := gridScrollTop v;
     listScrollRow := listScrollRow v |}.

Definition set_selectedPlaylist (p : option Playlist) (v : ResultsView)
  : ResultsView :=
  {| id := id v; library := library v; selectedGame := selectedGame v;
     selectedPlaylist := p; data := data v;
     orderBy := orderBy v; orderReverse := orderReverse v; text := text v;
     textPositions := textPositions v; advancedFilter := advancedFilter v;
     searchFilter := searchFilter v; loaded := loaded v;
     expanded := expanded v; gridScrollCol := gridScrollCol v;
     gridScrollRow := gridScrollRow v; gridScrollTop := gridScrollTop v;
     listScrollRow := listScrollRow v |}.

Definition set_searchFilter (q : SearchQuery) (v : ResultsView) : ResultsView :=
  {| id := id v; library := library v; selectedGame := selectedGame v;
     selectedPlaylist := selectedPlaylist v; data := data v;
     orderBy := orderBy v; orderReverse := orderReverse v; text := text v;
     textPositions := textPositions v; advancedFilter := advancedFilter v;
     searchFilter := q; loaded := loaded v;
     expanded := expanded v; gridScrollCol := gridScrollCol v;
     gridScrollRow := gridScrollRow v; gridScrollTop := gridScrollTop v;
     listScrollRow := listScrollRow v |}.

(** [view.gridScrollCol = undefined; view.gridScrollRow = undefined;
    view.listScrollRow = undefined] *)
Definition clear_scroll (v : ResultsView) : ResultsView :=
  {| id := id v; library := library v; selectedGame := selectedGame v;
     selectedPlaylist := selectedPlaylist v; data := data v;
     orderBy := orderBy v; orderReverse := orderReverse v; text := text v;
     textPositions := textPositions v; advancedFilter := advancedFilter v;
     searchFilter := searchFilter v; loaded := loaded v;
     expanded := expanded v; gridScrollCol := None;
     gridScrollRow := None; gridScrollTop := gridScrollTop v;
     listScrollRow := None |}.

(** The fields a stored view restores; [addViews] leaves [expanded] alone
    and passes the view's own value. *)
Definition restore (t : string) (af : AdvancedFilter) (ob orv : string)
    (e : bool) (v : ResultsView) : ResultsView :=
  {| id := id v; library := library v; selectedGame := selectedGame v;
     selectedPlaylist := selectedPlaylist v; data := data v;
     orderBy := ob; orderReverse := orv; text := t;
     textPositions := textPositions v; advancedFilter := af;
     searchFilter := searchFilter v; loaded := loaded v;
     expanded := e; gridScrollCol := gridScrollCol v;
     gridScrollRow := gridScrollRow v; gridScrollTop := gridScrollTop v;
     listScrollRow := listScrollRow v |}.

Definition set_total (t : option Z) (d : ResultsViewData) : ResultsViewData :=
  {| searchId := searchId d; games := games d; total := t;
     pages := pages d; keyset := keyset d; metaState := metaState d |}.

Definition set_games (g : gmap N ViewGame) (d : ResultsViewData)
  : ResultsViewData :=
  {| searchId := searchId d; games := g; total := total d;
     pages := pages d; keyset := keyset d; metaState := metaState d |}.

Definition set_pages (p : gmap N RequestState) (d : ResultsViewData)
  : ResultsViewData :=
  {| searchId := searchId d; games := games d; total := total d;
     pages := p; keyset := keyset d; metaState := metaState d |}.

Definition set_keyset (k : PageKeyset) (d : ResultsViewData) : ResultsViewData :=
  {| searchId := searchId d; games := games d; total := total d;
     pages := pages d; keyset := k; metaState := metaState d |}.

Definition set_metaState (s : RequestState) (d : ResultsViewData)
  : ResultsViewData :=
  {| searchId := searchId d; games := games d; total := total d;
     pages := pages d; keyset := keyset d; metaState := s |}.

Definition set_views (vs : gmap string ResultsView) (s : SearchState)
  : SearchState :=
  {| views := vs; dropdowns := dropdowns s |}.

(** ** Fresh caches and fresh views *)

(** The literal [{searchId: 0, keyset: [], games: [], pages: {},
    metaState: RequestState.WAITING}] used for every new view. *)
Definition emptyData : ResultsViewData :=
  {| searchId := 0; games := ∅; total := None; pages := ∅; keyset := [];
     metaState := WAITING |}.

(** The literal assigned to [view.data] when a newer search supersedes the
    cache (in [setSearchId] and in [addData]). *)
Definition resetData (sid : Z) : ResultsViewData :=
  {| searchId := sid; games := ∅; total := None; pages := ∅; keyset := [];
     metaState := REQUESTED |}.

(** The view literal of [addViews], [deleteView] and [createViews];
    [lib] is the argument of [getDefaultAdvancedFilter]. *)
Definition newView (view : string) (lib : option string) : ResultsView :=
  {| id := view; library := None; selectedGame := None;
     selectedPlaylist := None; data := emptyData;
     orderBy := "title"; orderReverse := "ASC"; text := "";
     textPositions := []; advancedFilter := getDefaultAdvancedFilter lib;
     searchFilter := {| sq_base := getDefaultGameSearch; viewId := view;
                        sq_searchId := 0; sq_page := 0; sq_offset := None |};
     loaded := false; expanded := true; gridScrollCol := None;
     gridScrollRow := None; gridScrollTop := None; listScrollRow := None |}.

Definition defaultGeneralState : ResultsView := newView GENERAL_VIEW_ID None.

Definition initialState : SearchState :=
  {| views := {[ GENERAL_VIEW_ID := defaultGeneralState ]};
     dropdowns := initialDropdowns |}.

(** ** The result cache: [setSearchId] and [addData] *)

Definition setSearchId_view (sid : Z) (v : ResultsView) : ResultsView :=
  if bool_decide (searchId (data v) < sid)
  then set_data (resetData sid) v
  else v.

(** A reducer that looks its view up, changes it in place and does
    nothing when the view is missing. *)
Definition on_view (f : ResultsView → ResultsView) (view : string)
    (state : SearchState) : SearchState :=
  match views state !! view with
  | Some v => set_views (<[view := f v]> (views state)) state
  | None => state
  end.

Definition setSearchId (state : SearchState) (view : string) (sid : Z)
  : SearchState :=
  on_view (setSearchId_view sid) view state.

(** [for (let i = 0; i < length; i++) pages[i] = WAITING;
     pages[0] = RECEIVED] with [length = Object.keys(keyset).length + 1]. *)
Definition rebuildPages (ks : PageKeyset) : gmap N RequestState :=
  <[0%N := RECEIVED]>
    (foldl (λ pg i, <[N.of_nat i := WAITING]> pg) ∅ (seq 0 (length ks + 1))).

(** [for (let i = 0; i < games.length; i++)
       view.data.games[startIdx + i] = games[i]] *)
Fixpoint writeGames (idx : N) (gs : list ViewGame) (m : gmap N ViewGame)
  : gmap N ViewGame :=
  match gs with
  | [] => m
  | g :: gs' => writeGames (N.succ idx) gs' (<[idx := g]> m)
  end.

(** The steps of [addData] after the stale check, in source order. *)

Definition stepReset (d : SearchAddDataActionData) (v : ResultsView)
  : ResultsView :=
  if bool_decide (searchId (data v) < ad_searchId d)
  then set_data (resetData (ad_searchId d)) v
  else v.

Definition stepTotal (d : SearchAddDataActionData) (v : ResultsView)
  : ResultsView :=
  match ad_total d with
  | Some t => clear_scroll (set_data (set_total (Some t) (data v)) v)
  | None => v
  end.

Definition stepKeyset (d : SearchAddDataActionData) (v : ResultsView)
  : ResultsView :=
  match ad_keyset d with
  | Some ks => set_data (set_pages (rebuildPages ks) (set_keyset ks (data v))) v
  | None => v
  end.

(** [Object.assign(view.data.pages, data.pages)]: the payload's entries
    win. *)
Definition stepPages (d : SearchAddDataActionData) (v : ResultsView)
  : ResultsView :=
  match ad_pages d with
  | Some pg => set_data (set_pages (pg ∪ pages (data v)) (data v)) v
  | None => v
  end.

Definition stepGames (d : SearchAddDataActionData) (v : ResultsView)
  : ResultsView :=
  match ad_page d, ad_games d with
  | Some page, Some gs =>
      let v1 :=
        if bool_decide (page = 0%N) && bool_decide (length gs = 0%nat)
        then set_data (set_total (Some 0) (data v)) v
        else
          let startIdx := (VIEW_PAGE_SIZE * page)%N in
          let dg := set_games (writeGames startIdx gs (games (data v))) (data v) in
          set_data (set_pages (<[page := RECEIVED]> (pages dg)) dg) v in
      set_data (set_metaState RECEIVED (data v1)) v1
  | _, _ => v
  end.

Definition addData_view (d : SearchAddDataActionData) (v : ResultsView)
  : ResultsView :=
  if bool_decide (searchId (data v) > ad_searchId d)
  then v
  else stepGames d (stepPages d (stepKeyset d (stepTotal d (stepReset d v)))).

Definition addData (state : SearchState) (view : string)
    (d : SearchAddDataActionData) : SearchState :=
  on_view (addData_view d) view state.

(** ** The view registry *)

(** [for (const view of payload.views) if (!state.views[view])
      state.views[view] = {...}] *)
Definition ensureViews (lib : string → option string) (names : list string)
    (vs : gmap string ResultsView) : gmap string ResultsView :=
  foldl (λ vs view,
           match vs !! view with
           | Some _ => vs
           | None => <[view := newView view (lib view)]> vs
           end) vs names.

(** The loop over [payload.storedViews]; [keepExpanded] tells whether
    [view.expanded] is left as it is ([addViews]) or restored
    ([createViews]). *)
Definition applyStored (prefs : Preferences) (keepExpanded : bool)
    (stored : list StoredView) (vs : gmap string ResultsView)
  : gmap string ResultsView :=
  foldl (λ vs sv,
           match vs !! sv_view sv with
           | Some v =>
               <[sv_view sv :=
                   restore (if loadViewsText prefs then sv_text sv else text v)
                           (sv_advancedFilter sv) (sv_orderBy sv)
                           (sv_orderReverse sv)
                           (if keepExpanded then expanded v else sv_expanded sv)
                           v]> vs
           | None => vs
           end) vs stored.

Definition addViews (prefs : Preferences) (state : SearchState)
    (names : list string) (storedViews : option (list StoredView))
  : SearchState :=
  let vs := ensureViews (λ _, None) names (views state) in
  set_views (match storedViews with
             | Some svs => applyStored prefs true svs vs
             | None => vs
             end) state.

(** [deleteView] also appends to the shared [customViews] preference, so
    it returns the preferences next to the state.  (The deferred
    [updatePreferencesData] only persists them.) *)
Definition deleteView (prefs : Preferences) (state : SearchState)
    (view : string) : SearchState * Preferences :=
  let vs := match views state !! view with
            | Some _ => delete view (views state)
            | None => views state
            end in
  let prefs' :=
    if bool_decide
         (length (filter (λ c, c ≠ view) (customViews prefs)) = 0%nat)
    then {| customViews := customViews prefs ++ ["Browse"];
            loadViewsText := loadViewsText prefs |}
    else prefs in
  let vs' := if bool_decide (size vs = 1%nat)
             then <["Browse" := newView "Browse" None]> vs
             else vs in
  (set_views vs' state, prefs').

(** [state.views[new] = state.views[old]; state.views[new].id = new;
    delete state.views[old]] *)
Definition renameView (state : SearchState) (old new : string) : SearchState :=
  match views state !! old with
  | Some v => set_views (delete old (<[new := set_id new v]> (views state))) state
  | None => state
  end.

(** [{...state.views[oldView], id: view, loaded: false, data: {...}}] *)
Definition duplicateOf (view : string) (v : ResultsView) : ResultsView :=
  {| id := view; library := library v; selectedGame := selectedGame v;
     selectedPlaylist := selectedPlaylist v; data := emptyData;
     orderBy := orderBy v; orderReverse := orderReverse v; text := text v;
     textPositions := textPositions v; advancedFilter := advancedFilter v;
     searchFilter := searchFilter v; loaded := false;
     expanded := expanded v; gridScrollCol := gridScrollCol v;
     gridScrollRow := gridScrollRow v; gridScrollTop := gridScrollTop v;
     listScrollRow := listScrollRow v |}.

Definition duplicateView (state : SearchState) (oldView view : string)
  : SearchState :=
  match views state !! oldView, views state !! view with
  | Some v, None => set_views (<[view := duplicateOf view v]> (views state)) state
  | _, _ => state
  end.

(** [state.views = { [GENERAL_VIEW_ID]: generalState }] and the two loops.
    When the general view is absent JavaScript keeps the key with the
    value [undefined]; the map here has no such entry. *)
Definition createViews (prefs : Preferences) (state : SearchState)
    (names : list string) (storedViews : option (list StoredView))
    (areLibraries : bool) : SearchState :=
  let cleared : gmap string ResultsView :=
    match views state !! GENERAL_VIEW_ID with
    | Some generalState => {[ GENERAL_VIEW_ID := generalState ]}
    | None => ∅
    end in
  let vs :=
    ensureViews (λ view, if areLibraries then Some view else None)
                names cleared in
  set_views (match storedViews with
             | Some svs => applyStored prefs false svs vs
             | None => vs
             end) state.

Definition setFilter_view (filter : SearchQuery) (v : ResultsView)
  : ResultsView :=
  if bool_decide (sq_searchId (searchFilter v) < sq_searchId filter)
  then set_data {| searchId := searchId (data v); games := ∅; total := None;
                   pages := ∅; keyset := []; metaState := REQUESTED |}
                (set_searchFilter filter v)
  else v.

Definition setFilter (state : SearchState) (filter : SearchQuery)
  : SearchState :=
  on_view (setFilter_view filter) (viewId filter) state.

Definition selectPlaylist (state : SearchState) (view : string)
    (playlist : option Playlist) : SearchState :=
  on_view (set_selectedPlaylist playlist) view state.

(** ** Requesting pages *)

(** [view.data.keyset[i-1]] used as a condition. *)
Definition cursorSet (ks : PageKeyset) (i : Z) : bool :=
  match ks !! Z.to_nat (i - 1) with
  | Some c => truthy c
  | None => false
  end.

(** One turn of the loop of [requestRange]. *)
Definition requestPage (acc : ResultsView * list BackMsg) (i : Z)
  : ResultsView * list BackMsg :=
  let '(v, sent) := acc in
  if bool_decide (i > 0)
     && bool_decide (pages (data v) !! Z.to_N i = Some WAITING)
     && cursorSet (keyset (data v)) i
  then (set_data (set_pages (<[Z.to_N i := REQUESTED]> (pages (data v)))
                            (data v)) v,
        sent ++ [BROWSE_VIEW_PAGE
                   {| sq_base := sq_base (searchFilter v);
                      viewId := viewId (searchFilter v);
                      sq_searchId := sq_searchId (searchFilter v);
                      sq_page := i;
                      sq_offset := keyset (data v) !! Z.to_nat (i - 1) |}])
  else acc.

(** [for (let i = start; i < start + count; i++)] *)
Definition requestRange_view (sid start count : Z) (v : ResultsView)
  : ResultsView * list BackMsg :=
  if bool_decide (searchId (data v) = sid)
  then foldl requestPage (v, []) (seqZ start count)
  else (v, []).

Definition requestRange (state : SearchState) (view : string)
    (sid start count : Z) : SearchState * list BackMsg :=
  match views state !! view with
  | Some v =>
      let '(v', sent) := requestRange_view sid start count v in
      (set_views (<[view := v']> (views state)) state, sent)
  | None => (state, [])
  end.

(** ** Reordering a playlist *)

(** [Array.prototype.findIndex]: [-1] when nothing matches. *)
Fixpoint findIndex_from {A} (i : Z) (p : A → bool) (l : list A) : Z :=
  match l with
  | [] => -1
  | x :: l' => if p x then i else findIndex_from (i + 1) p l'
  end.

Definition findIndex {A} (p : A → bool) (l : list A) : Z :=
  findIndex_from 0 p l.

(** [Array.prototype.splice(start, deleteCount, ...items)]: the array that
    is left.  A negative [start] counts from the end, and [start] is
    clamped to the array. *)
Definition splice {A} (start : Z) (deleteCount : nat) (items : list A)
    (l : list A) : list A :=
  let len := Z.of_nat (length l) in
  let s := Z.to_nat (if bool_decide (start < 0)
                     then Z.max (len + start) 0
                     else Z.min start len) in
  take s l ++ items ++ drop (s + deleteCount) l.

Definition hasGameId (gid : string) (g : PlaylistGame) : bool :=
  bool_decide (gameId g = gid).

(** The reorder of [view.selectedPlaylist.games], given the two indices
    found before the source entry is removed. *)
Definition moveEntry (sourceIdx destIdx : Z) (destGameId : string)
    (sourceGame : PlaylistGame) (l : list PlaylistGame) : list PlaylistGame :=
  let l1 := splice sourceIdx 1 [] l in
  if bool_decide (sourceIdx < destIdx)
  then
    let destIdx' := findIndex (hasGameId destGameId) l1 in
    if bool_decide (destIdx' < Z.of_nat (length l1))
    then splice (destIdx' + 1) 0 [sourceGame] l1
    else l1 ++ [sourceGame]
  else
    let destIdx' := findIndex (hasGameId destGameId) l1 in
    splice destIdx' 0 [sourceGame] l1.

(** [Object.entries(view.data.games)] with the keys turned back into
    numbers: the entries in ascending order of their offsets. *)
Definition key_le (a b : N * ViewGame) : Prop := (a.1 ≤ b.1)%N.

#[global] Instance key_le_dec a b : Decision (key_le a b).
Proof. unfold key_le. apply _. Defined.

Definition entries (m : gmap N ViewGame) : list (N * ViewGame) :=
  merge_sort key_le (map_to_list m).

(** [Object.fromEntries]: a later entry with the same key wins. *)
Definition fromEntries (es : list (N * ViewGame)) : gmap N ViewGame :=
  foldl (λ m e, <[e.1 := e.2]> m) ∅ es.

Definition hasId (gid : string) (e : N * ViewGame) : bool :=
  bool_decide (vg_id e.2 = gid).

(** [games[i][0] = k], [games[i][0]--] and [games[i][0]++].  An entry
    that is decremented sits at an index of at least one, so its offset
    is at least one as well. *)
Definition setKey (k : N) (i : Z) (es : list (N * ViewGame))
  : list (N * ViewGame) :=
  alter (λ e, (k, e.2)) (Z.to_nat i) es.

Definition decKey (es : list (N * ViewGame)) (i : Z) : list (N * ViewGame) :=
  alter (λ e, (N.pred e.1, e.2)) (Z.to_nat i) es.

Definition incKey (es : list (N * ViewGame)) (i : Z) : list (N * ViewGame) :=
  alter (λ e, (N.succ e.1, e.2)) (Z.to_nat i) es.

(** The second half of [movePlaylistGame]: the offsets in the results
    view.  [sourceIdx] is the index of the source in the playlist, which is
    what the source compares and starts its first loop with. *)
Definition moveRecords (sourceIdx : Z) (sourceGameId destGameId : string)
    (gm : gmap N ViewGame) : gmap N ViewGame :=
  let games := entries gm in
  let sourceIndex := findIndex (hasId sourceGameId) games in
  let destIndex := findIndex (hasId destGameId) games in
  let games' :=
    match games !! Z.to_nat destIndex with
    | Some destGameEntry =>
        if bool_decide (sourceIndex > -1) && bool_decide (destIndex > -1)
        then
          let games1 := setKey destGameEntry.1 sourceIndex games in
          if bool_decide (sourceIdx < destIndex)
          then foldl decKey games1
                     (seqZ (sourceIdx + 1) (destIndex + 1 - (sourceIdx + 1)))
          else foldl incKey games1 (seqZ destIndex (sourceIndex - destIndex))
        else games
    | None => games
    end in
  fromEntries games'.

Definition movePlaylistGame_view (sourceGameId destGameId : string)
    (v : ResultsView) : ResultsView * list BackMsg :=
  match selectedPlaylist v with
  | Some pl =>
      let sourceIdx := findIndex (hasGameId sourceGameId) (pl_games pl) in
      let destIdx := findIndex (hasGameId destGameId) (pl_games pl) in
      match pl_games pl !! Z.to_nat sourceIdx with
      | Some sourceGame =>
          if bool_decide (sourceIdx > -1) && bool_decide (destIdx > -1)
          then
            let pl' :=
              {| pl_games := moveEntry sourceIdx destIdx destGameId sourceGame
                                       (pl_games pl);
                 pl_info := pl_info pl |} in
            let gm := moveRecords sourceIdx sourceGameId destGameId
                                  (games (data v)) in
            (set_data (set_games gm (data v))
                      (set_selectedPlaylist (Some pl') v),
             [SAVE_PLAYLIST pl'])
          else (v, [])
      | None => (v, [])
      end
  | None => (v, [])
  end.

Definition movePlaylistGame (state : SearchState)
    (view sourceGameId destGameId : string) : SearchState * list BackMsg :=
  match views state !! view with
  | Some v =>
      let '(v', sent) := movePlaylistGame_view sourceGameId destGameId v in
      (set_views (<[view := v']> (views state)) state, sent)
  | None => (state, [])
  end.

(** ** The remaining reducers *)

Definition set_selectedGame (g : option Game) (v : ResultsView) : ResultsView :=
  {| id := id v; library := library v; selectedGame := g;
     selectedPlaylist := selectedPlaylist v; data := data v;
     orderBy := orderBy v; orderReverse := orderReverse v; text := text v;
     textPositions := textPositions v; advancedFilter := advancedFilter v;
     searchFilter := searchFilter v; loaded := loaded v;
     expanded := expanded v; gridScrollCol := gridScrollCol v;
     gridScrollRow := gridScrollRow v; gridScrollTop := gridScrollTop v;
     listScrollRow := listScrollRow v |}.

Definition set_scroll (col row top lrow : option Z) (v : ResultsView)
  : ResultsView :=
  {| id := id v; library := library v; selectedGame := selectedGame v;
     selectedPlaylist := selectedPlaylist v; data := data v;
     orderBy := orderBy v; orderReverse := orderReverse v; text := text v;
     textPositions := textPositions v; advancedFilter := advancedFilter v;
     searchFilter := searchFilter v; loaded := loaded v;
     expanded := expanded v; gridScrollCol := col;
     gridScrollRow := row; gridScrollTop := top;
     listScrollRow := lrow |}.

Definition setSearchText (state : SearchState) (view text' : string)
  : SearchState :=
  on_view (λ v, restore text' (advancedFilter v) (orderBy v) (orderReverse v)
                        (expanded v) v) view state.

Definition selectGame (state : SearchState) (view : string)
    (game : option Game) : SearchState :=
  on_view (set_selectedGame game) view state.

Definition setOrderBy (state : SearchState) (view value : string)
  : SearchState :=
  on_view (λ v, restore (text v) (advancedFilter v) value (orderReverse v)
                        (expanded v) v) view state.

Definition setOrderReverse (state : SearchState) (view value : string)
  : SearchState :=
  on_view (λ v, restore (text v) (advancedFilter v) (orderBy v) value
                        (expanded v) v) view state.

Definition setAdvancedFilter (state : SearchState) (view : string)
    (filter : AdvancedFilter) : SearchState :=
  on_view (λ v, restore (text v) filter (orderBy v) (orderReverse v)
                        (expanded v) v) view state.

Definition setExpanded (state : SearchState) (view : string) (e : bool)
  : SearchState :=
  on_view (λ v, restore (text v) (advancedFilter v) (orderBy v)
                        (orderReverse v) e v) view state.

Definition setGridScroll (state : SearchState) (view : string) (col row : Z)
  : SearchState :=
  on_view (λ v, set_scroll (Some col) (Some row) (gridScrollTop v)
                           (listScrollRow v) v) view state.

Definition setGridScrollTop (state : SearchState) (view : string)
    (scrollTop : Z) : SearchState :=
  on_view (λ v, set_scroll (gridScrollCol v) (gridScrollRow v) (Some scrollTop)
                           (listScrollRow v) v) view state.

Definition setListScroll (state : SearchState) (view : string) (row : Z)
  : SearchState :=
  on_view (λ v, set_scroll (gridScrollCol v) (gridScrollRow v)
                           (gridScrollTop v) (Some row) v) view state.

(** [for (const viewName of Object.keys(state.views))]: every view whose
    selected game has the id of [game] gets [game] as its selected game. *)
Definition updateGame_view (game : Game) (v : ResultsView) : ResultsView :=
  match selectedGame v with
  | Some g => if bool_decide (game_id g = game_id game)
              then set_selectedGame (Some game) v
              else v
  | None => v
  end.

Definition updateGame (state : SearchState) (game : Game) : SearchState :=
  set_views (updateGame_view game <$> views state) state.

(** ** The reducer as a whole

    Every action of the slice whose reducer is modelled here, and the
    step it makes on the store, the preferences and the messages sent so
    far. *)

Inductive Action :=
  | AddViews (names : list string) (storedViews : option (list StoredView))
  | DeleteView (view : string)
  | RenameView (old new : string)
  | DuplicateView (oldView view : string)
  | CreateViews (names : list string) (storedViews : option (list StoredView))
                (areLibraries : bool)
  | SetSearchText (view text' : string)
  | SelectPlaylist (view : string) (playlist : option Playlist)
  | SelectGame (view : string) (game : option Game)
  | SetFilter (filter : SearchQuery)
  | SetSearchId (view : string) (sid : Z)
  | SetOrderBy (view value : string)
  | SetOrderReverse (view value : string)
  | SetAdvancedFilter (view : string) (filter : AdvancedFilter)
  | RequestRange (view : string) (sid start count : Z)
  | MovePlaylistGame (view sourceGameId destGameId : string)
  | UpdateGame (game : Game)
  | SetExpanded (view : string) (e : bool)
  | SetGridScroll (view : string) (col row : Z)
  | SetGridScrollTop (view : string) (scrollTop : Z)
  | SetListScroll (view : string) (row : Z)
  | AddData (view : string) (d : SearchAddDataActionData).

Record World := {
  store : SearchState;
  preferences : Preferences;
  outbox : list BackMsg
}.

Definition withStore (w : World) (s : SearchState) : World :=
  {| store := s; preferences := preferences w; outbox := outbox w |}.

Definition withSent (w : World) (r : SearchState * list BackMsg) : World :=
  {| store := r.1; preferences := preferences w; outbox := outbox w ++ r.2 |}.

Definition reduce (w : World) (a : Action) : World :=
  let s := store w in
  match a with
  | AddViews names stored => withStore w (addViews (preferences w) s names stored)
  | DeleteView view =>
      let r := deleteView (preferences w) s view in
      {| store := r.1; preferences := r.2; outbox := outbox w |}
  | RenameView old new => withStore w (renameView s old new)
  | DuplicateView oldView view => withStore w (duplicateView s oldView view)
  | CreateViews names stored libs =>
      withStore w (createViews (preferences w) s names stored libs)
  | SetSearchText view t => withStore w (setSearchText s view t)
  | SelectPlaylist view pl => withStore w (selectPlaylist s view pl)
  | SelectGame view g => withStore w (selectGame s view g)
  | SetFilter filter => withStore w (setFilter s filter)
  | SetSearchId view sid => withStore w (setSearchId s view sid)
  | SetOrderBy view x => withStore w (setOrderBy s view x)
  | SetOrderReverse view x => withStore w (setOrderReverse s view x)
  | SetAdvancedFilter view f => withStore w (setAdvancedFilter s view f)
  | RequestRange view sid start count =>
      withSent w (requestRange s view sid start count)
  | MovePlaylistGame view src dst => withSent w (movePlaylistGame s view src dst)
  | UpdateGame g => withStore w (updateGame s g)
  | SetExpanded view e => withStore w (setExpanded s view e)
  | SetGridScroll view col row => withStore w (setGridScroll s view col row)
  | SetGridScrollTop view t => withStore w (setGridScrollTop s view t)
  | SetListScroll view row => withStore w (setListScroll s view row)
  | AddData view d => withStore w (addData s view d)
  end.

Definition run (acts : list Action) (w : World) : World := foldl reduce w acts.

(** The actions that mutate one named view in place and neither add nor
    remove views. *)
Definition target (a : Action) : option string :=
  match a with
  | SetSearchText view _ | SelectPlaylist view _ | SelectGame view _
  | SetSearchId view _ | SetOrderBy view _ | SetOrderReverse view _
  | SetAdvancedFilter view _ | RequestRange view _ _ _
  | MovePlaylistGame view _ _ | SetExpanded view _ | SetGridScroll view _ _
  | SetGridScrollTop view _ | SetListScroll view _ | AddData view _ =>
      Some view
  | SetFilter filter => Some (viewId filter)
  | _ => None
  end.

(** The actions that are not operations of the registry. *)
Definition keepsRegistry (a : Action) : bool :=
  match a with
  | AddViews _ _ | DeleteView _ | RenameView _ _ | DuplicateView _ _
  | CreateViews _ _ _ => false
  | _ => true
  end.

(** Every view is stored under its own [id]. *)
Definition wellKeyed (s : SearchState) : Prop :=
  ∀ k v, views s !! k = Some v → id v = k.

(** The page [i] of [v] is one that [requestRange] requests. *)
Definition eligible (v : ResultsView) (i : Z) : bool :=
  bool_decide (i > 0)
  && bool_decide (pages (data v) !! Z.to_N i = Some WAITING)
  && cursorSet (keyset (data v)) i.

(** The message [requestRange] sends for page [i] of [v]. *)
Definition pageRequest (v : ResultsView) (i : Z) : BackMsg :=
  BROWSE_VIEW_PAGE
    {| sq_base := sq_base (searchFilter v);
       viewId := viewId (searchFilter v);
       sq_searchId := sq_searchId (searchFilter v);
       sq_page := i;
       sq_offset := keyset (data v) !! Z.to_nat (i - 1) |}.

(** The pages of the range that [requestRange] requests, and the page
    table with the pages of a list marked as requested. *)
Definition requested (v : ResultsView) (start count : Z) : list Z :=
  filter (λ i, eligible v i = true) (seqZ start count).

Definition markRequested (pg : gmap N RequestState) (l : list Z)
  : gmap N RequestState :=
  foldl (λ pg i, <[Z.to_N i := REQUESTED]> pg) pg l.

(** The actions that can change the cache of a view. *)
Definition touchesCache (a : Action) : bool :=
  match a with
  | SetFilter _ | SetSearchId _ _ | RequestRange _ _ _ _
  | MovePlaylistGame _ _ _ | AddData _ _ => true
  | _ => false
  end.

(** What a step on a view keeps: its [id], and a [searchId] that does not
    go down; its whole cache when [cache] is [false]. *)
Definition gentle (cache : bool) (f : ResultsView → ResultsView) : Prop :=
  ∀ v, id (f v) = id v
       ∧ searchId (data v) ≤ searchId (data (f v))
       ∧ (cache = false → data (f v) = data v).

(** The payload of a page response: [{searchId, page, games}]. *)
Definition pageResponse (sid : Z) (page : N) (gs : list ViewGame)
  : SearchAddDataActionData :=
  {| ad_searchId := sid; ad_page := Some page; ad_games := Some gs;
     ad_total := None; ad_pages := None; ad_keyset := None |}.

(** What one stored view does to the view it names, in the loop over
    [payload.storedViews]. *)
Definition restoreFrom (prefs : Preferences) (keepExpanded : bool)
    (sv : StoredView) (v : ResultsView) : ResultsView :=
  restore (if loadViewsText prefs then sv_text sv else text v)
          (sv_advancedFilter sv) (sv_orderBy sv) (sv_orderReverse sv)
          (if keepExpanded then expanded v else sv_expanded sv) v.

(** What the whole loop does to the view stored under [k]. *)
Definition restoreAll (prefs : Preferences) (keepExpanded : bool)
    (stored : list StoredView) (k : string) (v : ResultsView) : ResultsView :=
  foldl (λ v sv, if decide (sv_view sv = k)
                 then restoreFrom prefs keepExpanded sv v else v) v stored.

(** The payload [requestKeyset] dispatches when the back end answers:
    [{searchId: payload.searchId, keyset: data.keyset, total: data.total}]. *)
Definition keysetResponse (sid : Z) (ks : PageKeyset) (t : option Z)
  : SearchAddDataActionData :=
  {| ad_searchId := sid; ad_page := None; ad_games := None;
     ad_total := t; ad_pages := None; ad_keyset := Some ks |}.

(** ** Sequences of cache operations *)

Inductive CacheOp :=
  | OpAddData (view : string) (d : SearchAddDataActionData)
  | OpSetSearchId (view : string) (sid : Z).

Definition applyOp (state : SearchState) (op : CacheOp) : SearchState :=
  match op with
  | OpAddData view d => addData state view d
  | OpSetSearchId view sid => setSearchId state view sid
  end.

Definition runOps (ops : list CacheOp) (state : SearchState) : SearchState :=
  foldl applyOp state ops.

(** ** What a move does to the records *)






(** ** Sequences of registry operations *)

Inductive RegistryOp :=
  | OpAddViews (names : list string) (storedViews : option (list StoredView))
  | OpDeleteView (view : string)
  | OpRenameView (old new : string)
  | OpDuplicateView (oldView view : string)
  | OpCreateViews (names : list string)
                  (storedViews : option (list StoredView))
                  (areLibraries : bool).

Definition applyRegistryOp (w : SearchState * Preferences) (op : RegistryOp)
  : SearchState * Preferences :=
  match op with
  | OpAddViews names stored => (addViews w.2 w.1 names stored, w.2)
  | OpDeleteView view => deleteView w.2 w.1 view
  | OpRenameView old new => (renameView w.1 old new, w.2)
  | OpDuplicateView oldView view => (duplicateView w.1 oldView view, w.2)
  | OpCreateViews names stored areLibraries =>
      (createViews w.2 w.1 names stored areLibraries, w.2)
  end.

Definition runRegistry (ops : list RegistryOp) (w : SearchState * Preferences)
  : SearchState * Preferences :=
  foldl applyRegistryOp w ops.

(** The operation is not a delete of the general view, and not a rename
    from or onto it. *)
Definition sparesGeneral (op : RegistryOp) : Prop :=
  match op with
  | OpDeleteView view => view ≠ GENERAL_VIEW_ID
  | OpRenameView old new => old ≠ GENERAL_VIEW_ID ∧ new ≠ GENERAL_VIEW_ID
  | _ => True
  end.

(** ** Where the model and the store agree *)

(** [state.views] is a plain object: the lookup [state.views[name]] and
    the test [name in state.views] also find what every object inherits
    from [Object.prototype], although such a name is no key.  The registry
    is modelled as the map of its keys, which is what the source sees for
    every other name: [ensureViews], [renameView] and [duplicateView] are
    the loops and tests of the source on the names that are not
    inherited. *)
Definition inheritedNames : list string :=
  ["constructor"; "hasOwnProperty"; "isPrototypeOf"; "propertyIsEnumerable";
   "toLocaleString"; "toString"; "valueOf"; "__proto__";
   "__defineGetter__"; "__defineSetter__";
   "__lookupGetter__"; "__lookupSetter__"].

Definition ownName (name : string) : Prop := name ∉ inheritedNames.

#[global] Instance ownName_dec name : Decision (ownName name).
Proof. unfold ownName. apply _. Defined.

(** Page numbers and offsets are numbers of the language, which are
    exact up to [2^53]: the page number and the offsets
    [VIEW_PAGE_SIZE * page + i] that a page of [gs] is written to are the
    ones of the model when they stay below that. *)
Definition exactOffsets (page : N) (gs : list ViewGame) : Prop :=
  (page ≤ 2 ^ 53)%N
  ∧ (VIEW_PAGE_SIZE * page + N.of_nat (length gs) ≤ 2 ^ 53)%N.

(** The actions on which a registry that holds the general view is kept
    as the source keeps it: no delete of the general view and no rename
    from or onto it, so that [createViews] finds the general view and
    leaves no key without a view, and no inherited name where a registry
    operation tests or creates a name. *)
Definition plainAction (a : Action) : Prop :=
  match a with
  | AddViews names _ | CreateViews names _ _ => Forall ownName names
  | DeleteView view => view ≠ GENERAL_VIEW_ID
  | RenameView old new =>
      old ≠ GENERAL_VIEW_ID ∧ new ≠ GENERAL_VIEW_ID ∧ ownName old ∧ ownName new
  | DuplicateView oldView view => ownName oldView ∧ ownName view
  | _ => True
  end.

#[global] Instance plainAction_dec a : Decision (plainAction a).
Proof. destruct a; simpl; apply _. Defined.

(** The state of page [i] of the view named [w], if both exist. *)
Definition pageState (state : SearchState) (w : string) (i : N)
  : option RequestState :=
  views state !! w ≫= λ v, pages (data v) !! i.

End Slice.

(** ** The dropdown data

    [resetDropdownData] and [setDropdownData] only read and write
    [state.dropdowns]; they are modelled on that record alone, with its
    fields as the slice declares them.  [Tag] is imported. *)

Section Dropdowns.
Context {Tag : Type}.

Record DropdownData := {
  dd_key : string;
  dd_tags : option (list Tag);
  dd_developers : option (list string);
  dd_publishers : option (list string);
  dd_series : option (list string)
}.

(** [Partial<SearchDropdownDataSet>]: a field is either absent or holds a
    value of the field's type. *)
Record DropdownPatch := {
  dp_key : option string;
  dp_tags : option (option (list Tag));
  dp_developers : option (option (list string));
  dp_publishers : option (option (list string));
  dp_series : option (option (list string))
}.

Definition resetDropdownData (dd : DropdownData) (payload : string)
  : DropdownData :=
  if bool_decide (payload ≠ dd_key dd)
  then {| dd_key := payload; dd_tags := None; dd_developers := None;
          dd_publishers := None; dd_series := None |}
  else dd.

(** [{...state.dropdowns, ...payload}] *)
Definition setDropdownData (dd : DropdownData) (payload : DropdownPatch)
  : DropdownData :=
  if bool_decide (dp_key payload = Some (dd_key dd))
  then {| dd_key := default (dd_key dd) (dp_key payload);
          dd_tags := default (dd_tags dd) (dp_tags payload);
          dd_developers := default (dd_developers dd) (dp_developers payload);
          dd_publishers := default (dd_publishers dd) (dp_publishers payload);
          dd_series := default (dd_series dd) (dp_series payload) |}
  else dd.

End Dropdowns.

Arguments DropdownData : clear implicits.
Arguments DropdownPatch : clear implicits.

(** ** A concrete instance

    Cursors, games and filters are strings; a cursor is truthy when it is
    not the empty string; pages hold three records. *)

#[local] Instance demo : Shared := {|
  Cursor := string;
  truthy := λ c, negb (bool_decide (c = ""));
  ViewGame := string;
  vg_id := λ g, g;
  Game := string;
  game_id := λ g, g;
  AdvancedFilter := option string;
  getDefaultAdvancedFilter := λ lib, lib;
  GameSearch := unit;
  getDefaultGameSearch := tt;
  ElementPosition := unit;
  PlaylistInfo := string;
  SearchDropdownDataSet := unit;
  initialDropdowns := tt;
  VIEW_PAGE_SIZE := 3%N
|}.

Module Demo.

Definition noPrefs : Preferences :=
  {| customViews := []; loadViewsText := false |}.

(** The general view and a view "Browse". *)
Definition twoViews : SearchState :=
  addViews noPrefs initialState ["Browse"] None.

(** The view "Browse" at search 1 with an empty cache. *)
Definition browse1 : SearchState := setSearchId twoViews "Browse" 1.

Definition keysetPayload : SearchAddDataActionData :=
  {| ad_searchId := 1; ad_page := None; ad_games := None;
     ad_total := Some 3; ad_pages := None;
     ad_keyset := Some ["c1"; "c2"] |}.

Definition pagePayload (sid : Z) (page : N) (gs : list string)
  : SearchAddDataActionData :=
  {| ad_searchId := sid; ad_page := Some page; ad_games := Some gs;
     ad_total := None; ad_pages := None; ad_keyset := None |}.

(** "Browse" after the keyset of search 1 arrived. *)
Definition browseKeyset : SearchState :=
  addData browse1 "Browse" keysetPayload.

Definition browseView : ResultsView := newView "Browse" None.

Definition browseView1 : ResultsView := setSearchId_view 1 browseView.

(** A third view next to the two. *)
Definition threeViews : SearchState :=
  addViews noPrefs browseKeyset ["Other"] None.

Definition entry (gid : string) : PlaylistGame :=
  {| gameId := gid; notes := "" |}.

Definition abcd : list PlaylistGame :=
  [entry "A"; entry "B"; entry "C"; entry "D"].

Definition favourites : Playlist :=
  {| pl_games := abcd; pl_info := "favourites" |}.

(** "Browse" showing the playlist, its first page of three records
    fetched. *)
Definition playlistState : SearchState :=
  addData (selectPlaylist browse1 "Browse" (Some favourites)) "Browse"
          (pagePayload 1 0 ["A"; "B"; "C"]).

Definition playlistView : ResultsView :=
  addData_view (pagePayload 1 0 ["A"; "B"; "C"])
               (set_selectedPlaylist (Some favourites) browseView1).

(** A longer playlist of which only the second page of records (offsets
    3 to 5) was fetched. *)
Definition longPlaylist : Playlist :=
  {| pl_games := [entry "P"; entry "Q"; entry "R";
                  entry "A"; entry "B"; entry "C"];
     pl_info := "long" |}.

Definition secondPageState : SearchState :=
  addData (selectPlaylist browse1 "Browse" (Some longPlaylist)) "Browse"
          (pagePayload 1 1 ["A"; "B"; "C"]).

(** The same playlist with two records of the first page and the second
    page fetched: the offsets 0, 1, 3, 4 and 5. *)
Definition gapState : SearchState :=
  addData (addData (selectPlaylist browse1 "Browse" (Some longPlaylist))
                   "Browse" (pagePayload 1 0 ["P"; "Q"]))
          "Browse" (pagePayload 1 1 ["A"; "B"; "C"]).

(** The view "Browse" of [browseKeyset], [playlistState] and
    [secondPageState]. *)
Definition browseKeysetView : ResultsView :=
  addData_view keysetPayload browseView1.

Definition secondPageView : ResultsView :=
  addData_view (pagePayload 1 1 ["A"; "B"; "C"])
               (set_selectedPlaylist (Some longPlaylist) browseView1).

Definition world0 : World :=
  {| store := browseKeyset; preferences := noPrefs; outbox := [] |}.

Definition filterOf (sid : Z) : SearchQuery :=
  {| sq_base := tt; viewId := "Browse"; sq_searchId := sid; sq_page := 0;
     sq_offset := None |}.

(** Actions on views that are no registry operations. *)
Definition viewActs : list Action :=
  [RequestRange "Browse" 1 0 3;
   AddData "Browse" (pagePayload 1 1 ["g4"; "g5"]);
   SetFilter (filterOf 2);
   SetSearchId "Browse" 2;
   SetSearchText GENERAL_VIEW_ID "zelda";
   UpdateGame "g4";
   AddData "Browse" (pagePayload 2 0 ["h1"])].

(** Actions that set query, ordering, selection and scroll position. *)
Definition uiActs : list Action :=
  [SetSearchText "Browse" "mario";
   SetOrderBy "Browse" "developer";
   SetOrderReverse "Browse" "DESC";
   SelectGame "Browse" (Some "g1");
   UpdateGame "g1";
   SetExpanded GENERAL_VIEW_ID false;
   SetGridScroll "Browse" 2 7;
   SetListScroll "Browse" 9;
   SelectPlaylist "Browse" (Some favourites)].

Definition registryOps : list RegistryOp :=
  [OpCreateViews ["arcade"] None true;
   OpDeleteView "Browse";
   OpRenameView "arcade" "games";
   OpDuplicateView GENERAL_VIEW_ID "copy";
   OpAddViews [GENERAL_VIEW_ID; "more"] None;
   OpDeleteView "games"].

(** Actions of every kind that spare the general view. *)
Definition plainActs : list Action :=
  [CreateViews ["arcade"; "Browse"] None true;
   SetSearchId "Browse" 1;
   AddData "Browse" keysetPayload;
   DeleteView "Browse";
   RenameView "arcade" "games";
   DuplicateView GENERAL_VIEW_ID "copy";
   AddViews [GENERAL_VIEW_ID; "more"] None;
   SelectPlaylist "more" (Some favourites);
   MovePlaylistGame "more" "A" "C";
   DeleteView "games"].

Definition cacheOps : list CacheOp :=
  [OpAddData "Browse" keysetPayload;
   OpSetSearchId "Browse" 5;
   OpAddData "Browse" (pagePayload 2 0 ["g1"]);
   OpSetSearchId GENERAL_VIEW_ID 3].

End Demo.

(** * Properties *)

Section Properties.
Context `{Shared}.

Lemma set_views_same (state : SearchState) : set_views (views state) state = state.
Proof. by destruct state. Qed.

Lemma on_view_id (f : ResultsView → ResultsView) view state :
  (∀ v, views state !! view = Some v → f v = v) → on_view f view state = state.
Proof.
  intros Hf. unfold on_view. destruct (views state !! view) as [v|] eqn:E; [|done].
  rewrite Hf by done. rewrite insert_id by done. apply set_views_same.
Qed.

Lemma on_view_lookup (f : ResultsView → ResultsView) view state w :
  views (on_view f view state) !! w
  = if decide (view = w) then f <$> views state !! w else views state !! w.
Proof.
  unfold on_view. destruct (views state !! view) as [v|] eqn:E; simpl.
  - rewrite lookup_insert. destruct (decide (view = w)) as [->|]; [by rewrite E|done].
  - destruct (decide (view = w)) as [->|]; [by rewrite E|done].
Qed.

(** ** Stale responses *)

(** C3. A response whose [searchId] is strictly less than the view's
    current [data.searchId] leaves the whole state, and so the whole view,
    unchanged. *)
Theorem addData_stale_noop (state : SearchState) (view : string)
    (d : SearchAddDataActionData) (v : ResultsView) :
  views state !! view = Some v →
  ad_searchId d < searchId (data v) →
  addData state view d = state.
Proof.
  intros Hv Hlt. unfold addData. apply on_view_id. intros v' Hv'.
  assert (v' = v) as -> by congruence.
  unfold addData_view. rewrite bool_decide_eq_true_2; [done|lia].
Qed.

(** ** The search id never goes down *)

Lemma stepTotal_searchId d v : searchId (data (stepTotal d v)) = searchId (data v).
Proof. unfold stepTotal. by destruct (ad_total d). Qed.

Lemma stepKeyset_searchId d v : searchId (data (stepKeyset d v)) = searchId (data v).
Proof. unfold stepKeyset. by destruct (ad_keyset d). Qed.

Lemma stepPages_searchId d v : searchId (data (stepPages d v)) = searchId (data v).
Proof. unfold stepPages. by destruct (ad_pages d). Qed.

Lemma stepGames_searchId d v : searchId (data (stepGames d v)) = searchId (data v).
Proof.
  unfold stepGames. destruct (ad_page d), (ad_games d); try done.
  by case_match.
Qed.

Lemma stepReset_searchId d v :
  searchId (data (stepReset d v)) = Z.max (searchId (data v)) (ad_searchId d).
Proof. unfold stepReset. case_bool_decide; simpl; lia. Qed.

Lemma addData_view_searchId d v :
  searchId (data (addData_view d v)) = Z.max (searchId (data v)) (ad_searchId d).
Proof.
  unfold addData_view. case_bool_decide; [lia|].
  by rewrite stepGames_searchId, stepPages_searchId, stepKeyset_searchId,
    stepTotal_searchId, stepReset_searchId.
Qed.

Lemma setSearchId_view_searchId sid v :
  searchId (data (setSearchId_view sid v)) = Z.max (searchId (data v)) sid.
Proof. unfold setSearchId_view. case_bool_decide; simpl; lia. Qed.

Lemma applyOp_searchId op state w v :
  views state !! w = Some v →
  ∃ v', views (applyOp state op) !! w = Some v'
        ∧ searchId (data v) ≤ searchId (data v').
Proof.
  intros Hv. destruct op as [view d|view sid]; simpl;
    unfold addData, setSearchId; rewrite on_view_lookup, Hv;
    destruct (decide (view = w)); simpl; eexists; (split; [done|]);
    rewrite ?addData_view_searchId, ?setSearchId_view_searchId; lia.
Qed.

(** C1. Over any sequence of [addData] and [setSearchId] operations, on
    any views, a view that exists keeps existing and its [data.searchId]
    at the end is at least what it was at the start. *)
Theorem searchId_non_decreasing (ops : list CacheOp) (state : SearchState)
    (w : string) (v : ResultsView) :
  views state !! w = Some v →
  ∃ v', views (runOps ops state) !! w = Some v'
        ∧ searchId (data v) ≤ searchId (data v').
Proof.
  revert state v. induction ops as [|op ops IH]; intros state v Hv.
  - exists v. split; [done|lia].
  - destruct (applyOp_searchId op state w v Hv) as (v1 & Hv1 & Hle).
    destruct (IH _ _ Hv1) as (v2 & Hv2 & Hle2).
    exists v2. split; [done|lia].
Qed.

(** ** What the loops of [addData] write *)

Lemma writeGames_lookup (gs : list ViewGame) (idx : N) (m : gmap N ViewGame) (k : N) :
  writeGames idx gs m !! k
  = if decide (idx ≤ k < idx + N.of_nat (length gs))%N
    then gs !! N.to_nat (k - idx)
    else m !! k.
Proof.
  revert idx m. induction gs as [|g gs IH]; intros idx m; simpl.
  - case_decide; [lia|done].
  - rewrite IH. destruct (decide (k = idx)) as [->|Hne].
    + rewrite decide_False by lia. rewrite decide_True by lia.
      by rewrite N.sub_diag, lookup_insert_eq.
    + rewrite lookup_insert_ne by done.
      destruct (decide (N.succ idx ≤ k < N.succ idx + N.of_nat (length gs))%N).
      * rewrite decide_True by lia.
        replace (N.to_nat (k - idx)) with (S (N.to_nat (k - N.succ idx))) by lia.
        done.
      * by rewrite decide_False by lia.
Qed.

Lemma foldl_waiting_lookup (n a : nat) (m : gmap N RequestState) (i : N) :
  foldl (λ pg j, <[N.of_nat j := WAITING]> pg) m (seq a n) !! i
  = if decide (a ≤ N.to_nat i < a + n)%nat then Some WAITING else m !! i.
Proof.
  revert a m. induction n as [|n IH]; intros a m; simpl.
  - case_decide; [lia|done].
  - rewrite IH. destruct (decide (i = N.of_nat a)) as [->|Hne].
    + rewrite decide_False by lia. rewrite decide_True by lia.
      by rewrite lookup_insert_eq.
    + rewrite lookup_insert_ne by done.
      destruct (decide (S a ≤ N.to_nat i < S a + n)%nat).
      * by rewrite decide_True by lia.
      * by rewrite decide_False by lia.
Qed.

(** The page table built for a keyset of length [k]: pages [0] to [k],
    page [0] received, the others waiting. *)
Lemma rebuildPages_lookup (ks : PageKeyset) (i : N) :
  rebuildPages ks !! i
  = if decide (i = 0%N) then Some RECEIVED
    else if decide (i ≤ N.of_nat (length ks))%N then Some WAITING
    else None.
Proof.
  unfold rebuildPages. destruct (decide (i = 0%N)) as [->|Hne].
  - by rewrite lookup_insert_eq.
  - rewrite lookup_insert_ne by done. rewrite foldl_waiting_lookup.
    destruct (decide (i ≤ N.of_nat (length ks))%N).
    + by rewrite decide_True by lia.
    + rewrite decide_False by lia. done.
Qed.

(** ** A newer response supersedes the cache *)

Lemma stepTotal_data_ext d v1 v2 :
  data v1 = data v2 → data (stepTotal d v1) = data (stepTotal d v2).
Proof. intros E. unfold stepTotal. destruct (ad_total d); simpl; by rewrite ?E. Qed.

Lemma stepKeyset_data_ext d v1 v2 :
  data v1 = data v2 → data (stepKeyset d v1) = data (stepKeyset d v2).
Proof. intros E. unfold stepKeyset. destruct (ad_keyset d); simpl; by rewrite ?E. Qed.

Lemma stepPages_data_ext d v1 v2 :
  data v1 = data v2 → data (stepPages d v1) = data (stepPages d v2).
Proof. intros E. unfold stepPages. destruct (ad_pages d); simpl; by rewrite ?E. Qed.

Lemma stepGames_data_ext d v1 v2 :
  data v1 = data v2 → data (stepGames d v1) = data (stepGames d v2).
Proof.
  intros E. unfold stepGames. destruct (ad_page d), (ad_games d); try done.
  case_match; simpl; by rewrite ?E.
Qed.

Lemma steps_data_ext d v1 v2 :
  data v1 = data v2 →
  data (stepGames d (stepPages d (stepKeyset d (stepTotal d v1))))
  = data (stepGames d (stepPages d (stepKeyset d (stepTotal d v2)))).
Proof.
  intros E. by apply stepGames_data_ext, stepPages_data_ext,
    stepKeyset_data_ext, stepTotal_data_ext.
Qed.

Lemma addData_view_newer d v :
  searchId (data v) < ad_searchId d →
  addData_view d v
  = stepGames d (stepPages d (stepKeyset d (stepTotal d
      (set_data (resetData (ad_searchId d)) v)))).
Proof.
  intros Hlt. unfold addData_view, stepReset.
  rewrite bool_decide_eq_false_2 by lia.
  by rewrite bool_decide_eq_true_2 by done.
Qed.

(** Where the records of a view come from once the steps ran on a cache
    without records. *)
Lemma steps_games_origin d v k g :
  games (data v) = ∅ →
  games (data (stepGames d (stepPages d (stepKeyset d (stepTotal d v))))) !! k
    = Some g →
  ∃ page gs i, ad_page d = Some page ∧ ad_games d = Some gs
               ∧ gs !! i = Some g
               ∧ k = (VIEW_PAGE_SIZE * page + N.of_nat i)%N.
Proof.
  intros Hempty.
  assert (games (data (stepPages d (stepKeyset d (stepTotal d v)))) = ∅) as E.
  { unfold stepPages, stepKeyset, stepTotal.
    destruct (ad_pages d), (ad_keyset d), (ad_total d); simpl; done. }
  revert E. generalize (stepPages d (stepKeyset d (stepTotal d v))). intros u E.
  unfold stepGames. destruct (ad_page d) as [page|], (ad_games d) as [gs|];
    try (rewrite E, lookup_empty; discriminate).
  case_match; simpl.
  - rewrite E, lookup_empty. discriminate.
  - rewrite writeGames_lookup, E, lookup_empty.
    destruct (decide _) as [Hk|]; [|discriminate].
    intros Hg. exists page, gs, (N.to_nat (k - VIEW_PAGE_SIZE * page)).
    repeat split; [done|lia].
Qed.

(** Where the page states come from once the steps ran on a cache without
    page states. *)
Lemma steps_pages_origin d v p st :
  pages (data v) = ∅ →
  pages (data (stepGames d (stepPages d (stepKeyset d (stepTotal d v))))) !! p
    = Some st →
  (ad_page d = Some p ∧ is_Some (ad_games d) ∧ st = RECEIVED)
  ∨ (∃ pg, ad_pages d = Some pg ∧ pg !! p = Some st)
  ∨ (∃ ks, ad_keyset d = Some ks ∧ rebuildPages ks !! p = Some st).
Proof.
  intros Hempty. unfold stepGames, stepPages, stepKeyset, stepTotal.
  destruct (ad_page d) as [page|], (ad_games d) as [gs|],
    (ad_pages d) as [pg|], (ad_keyset d) as [ks|], (ad_total d) as [t|];
    simpl; repeat case_match; simpl; rewrite ?Hempty;
    rewrite ?lookup_insert; repeat case_decide; intros Hst;
    try (apply lookup_union_Some_raw in Hst as [Hst|[_ Hst]]);
    rewrite ?lookup_empty in Hst; simplify_eq; eauto 8.
Qed.

(** C2. When the payload's [searchId] is strictly greater than the view's,
    [addData] is the merge run on the view whose cache was first reset to
    [{searchId: payload.searchId, games: {}, pages: {}, keyset: [],
    total: undefined}]; the resulting cache is the same whatever the old
    cache held, every record in it is one of the payload's at its offset
    [VIEW_PAGE_SIZE * page + i], and every page state in it comes from the
    payload (its page, its page states or its keyset). *)
Theorem addData_supersede (state : SearchState) (view : string)
    (d : SearchAddDataActionData) (v : ResultsView) :
  views state !! view = Some v →
  searchId (data v) < ad_searchId d →
  let fresh := set_data (resetData (ad_searchId d)) v in
  let v' := stepGames d (stepPages d (stepKeyset d (stepTotal d fresh))) in
  searchId (data fresh) = ad_searchId d ∧ games (data fresh) = ∅
  ∧ pages (data fresh) = ∅ ∧ keyset (data fresh) = [] ∧ total (data fresh) = None
  ∧ views (addData state view d) !! view = Some v'
  ∧ (∀ v0, searchId (data v0) < ad_searchId d →
           data (addData_view d v0) = data v')
  ∧ (∀ k g, games (data v') !! k = Some g →
       ∃ page gs i, ad_page d = Some page ∧ ad_games d = Some gs
                    ∧ gs !! i = Some g
                    ∧ k = (VIEW_PAGE_SIZE * page + N.of_nat i)%N)
  ∧ (∀ p st, pages (data v') !! p = Some st →
       (ad_page d = Some p ∧ is_Some (ad_games d) ∧ st = RECEIVED)
       ∨ (∃ pg, ad_pages d = Some pg ∧ pg !! p = Some st)
       ∨ (∃ ks, ad_keyset d = Some ks ∧ rebuildPages ks !! p = Some st)).
Proof.
  intros Hv Hlt fresh v'. repeat split; try done.
  - unfold addData. rewrite on_view_lookup, decide_True by done.
    rewrite Hv. simpl. by rewrite addData_view_newer.
  - intros v0 Hlt0. rewrite addData_view_newer by done. by apply steps_data_ext.
  - intros k g. by apply steps_games_origin.
  - intros p st. by apply steps_pages_origin.
Qed.

(** ** Applying a payload twice *)

Lemma writeGames_idem (gs : list ViewGame) (idx : N) (m : gmap N ViewGame) :
  writeGames idx gs (writeGames idx gs m) = writeGames idx gs m.
Proof.
  apply map_eq. intros k. rewrite !writeGames_lookup.
  by destruct (decide _).
Qed.

Lemma assign_idem (pg P : gmap N RequestState) : pg ∪ (pg ∪ P) = pg ∪ P.
Proof. by rewrite (assoc_L (∪)), (idemp_L (∪)). Qed.

Lemma assign_mark_idem (pg P : gmap N RequestState) (p : N) (x : RequestState) :
  <[p := x]> (pg ∪ <[p := x]> (pg ∪ P)) = <[p := x]> (pg ∪ P).
Proof.
  apply map_eq. intros i. rewrite !lookup_insert. case_decide; [done|].
  rewrite !lookup_union, lookup_insert_ne, lookup_union by done.
  by destruct (pg !! i), (P !! i).
Qed.

Lemma mark_idem (P : gmap N RequestState) (p : N) (x : RequestState) :
  <[p := x]> (<[p := x]> P) = <[p := x]> P.
Proof. apply insert_insert_eq. Qed.

(** The merge steps that follow the reset are idempotent on every view. *)
Lemma steps_idem d v :
  let merge u := stepGames d (stepPages d (stepKeyset d (stepTotal d u))) in
  merge (merge v) = merge v.
Proof.
  destruct v as [? ? ? ? dt ? ? ? ? ? ? ? ? ? ? ? ?], dt.
  destruct d as [sid [page|] [gs|] [t|] [pg|] [ks|]];
    unfold stepGames;
    cbv beta iota zeta delta [ad_page ad_games];
    try destruct (bool_decide (page = 0%N) && bool_decide (length gs = 0%nat));
    cbv beta iota zeta delta
      [stepPages stepKeyset stepTotal set_data set_pages set_games set_total
       set_metaState set_keyset clear_scroll
       ad_total ad_pages ad_keyset
       data games pages total keyset metaState searchId
       id library selectedGame selectedPlaylist orderBy orderReverse text
       textPositions advancedFilter searchFilter loaded expanded
       gridScrollCol gridScrollRow gridScrollTop listScrollRow];
    rewrite ?writeGames_idem, ?assign_mark_idem, ?assign_idem, ?mark_idem;
    reflexivity.
Qed.

Lemma addData_view_idem d v :
  addData_view d (addData_view d v) = addData_view d v.
Proof.
  unfold addData_view at 2 3.
  destruct (bool_decide (searchId (data v) > ad_searchId d)) eqn:Hstale.
  - unfold addData_view. by rewrite Hstale.
  - apply bool_decide_eq_false in Hstale.
    set (r := stepReset d v).
    assert (searchId (data r) = ad_searchId d) as Hr.
    { unfold r. rewrite stepReset_searchId. lia. }
    set (w := stepGames d (stepPages d (stepKeyset d (stepTotal d r)))).
    assert (searchId (data w) = ad_searchId d) as Hw.
    { unfold w. by rewrite stepGames_searchId, stepPages_searchId,
        stepKeyset_searchId, stepTotal_searchId. }
    unfold addData_view. rewrite bool_decide_eq_false_2 by lia.
    unfold stepReset at 1. rewrite bool_decide_eq_false_2 by lia.
    apply (steps_idem d r).
Qed.

(** C4. Applying the same payload twice in a row gives the state that
    applying it once gives, for every state, view name and payload. *)
Theorem addData_idempotent (state : SearchState) (view : string)
    (d : SearchAddDataActionData) :
  addData (addData state view d) view d = addData state view d.
Proof.
  unfold addData, on_view.
  destruct (views state !! view) as [v|] eqn:Hv; simpl.
  - rewrite lookup_insert_eq. simpl.
    by rewrite insert_insert_eq, addData_view_idem.
  - by rewrite Hv.
Qed.

(** ** A keyset rebuilds the page table *)

Lemma addData_view_same d v :
  ad_searchId d = searchId (data v) →
  addData_view d v = stepGames d (stepPages d (stepKeyset d (stepTotal d v))).
Proof.
  intros E. unfold addData_view, stepReset.
  by rewrite !bool_decide_eq_false_2 by lia.
Qed.

Lemma stepPages_keyset d v : keyset (data (stepPages d v)) = keyset (data v).
Proof. unfold stepPages. by destruct (ad_pages d). Qed.

Lemma stepGames_keyset d v : keyset (data (stepGames d v)) = keyset (data v).
Proof.
  unfold stepGames. destruct (ad_page d), (ad_games d); try done.
  by case_match.
Qed.

(** C5. For a payload of the view's own [searchId] that carries a keyset
    [ks] of length [k]: the keyset block of [addData] leaves the view with
    [ks] as its keyset and with a page table that holds exactly the pages
    [0] to [k], page [0] received and the others waiting, whatever the
    table was; the rest of [addData] (the payload's own page states and
    page of records) runs on that table; the keyset of the result is [ks];
    and when the payload carries no page states and no page of records,
    the page table of the result is that rebuilt table. *)
Theorem addData_keyset_rebuild (state : SearchState) (view : string)
    (d : SearchAddDataActionData) (v : ResultsView) (ks : PageKeyset) :
  views state !! view = Some v →
  ad_searchId d = searchId (data v) →
  ad_keyset d = Some ks →
  let rebuilt := stepKeyset d (stepTotal d v) in
  keyset (data rebuilt) = ks
  ∧ (∀ i : N, pages (data rebuilt) !! i
       = if decide (i = 0%N) then Some RECEIVED
         else if decide (i ≤ N.of_nat (length ks))%N then Some WAITING
         else None)
  ∧ ∃ v', views (addData state view d) !! view = Some v'
      ∧ v' = stepGames d (stepPages d rebuilt)
      ∧ keyset (data v') = ks
      ∧ (ad_pages d = None → ad_page d = None ∨ ad_games d = None →
         pages (data v') = pages (data rebuilt)).
Proof.
  intros Hv Hsid Hks rebuilt.
  assert (keyset (data rebuilt) = ks) as Hk.
  { unfold rebuilt, stepKeyset. by rewrite Hks. }
  split; [done|]. split.
  - intros i. unfold rebuilt, stepKeyset. rewrite Hks. simpl.
    apply rebuildPages_lookup.
  - eexists. split; [|split; [reflexivity|split]].
    + unfold addData. rewrite on_view_lookup, decide_True by done.
      rewrite Hv. simpl. by rewrite addData_view_same.
    + by rewrite stepGames_keyset, stepPages_keyset.
    + intros Hpg Hpage. unfold stepGames, stepPages. rewrite Hpg.
      destruct Hpage as [-> | ->]; [done|]. by destruct (ad_page d).
Qed.

(** ** Requesting a range of pages *)

Lemma requestPage_inv (v0 v : ResultsView) (sent : list BackMsg) (i : Z) :
  keyset (data v) = keyset (data v0) →
  (∀ j : N, pages (data v) !! j = pages (data v0) !! j
      ∨ ((0 < j)%N ∧ pages (data v0) !! j = Some WAITING
         ∧ cursorSet (keyset (data v0)) (Z.of_N j) = true
         ∧ pages (data v) !! j = Some REQUESTED)) →
  let v' := (requestPage (v, sent) i).1 in
  keyset (data v') = keyset (data v0)
  ∧ (∀ j : N, pages (data v') !! j = pages (data v0) !! j
      ∨ ((0 < j)%N ∧ pages (data v0) !! j = Some WAITING
         ∧ cursorSet (keyset (data v0)) (Z.of_N j) = true
         ∧ pages (data v') !! j = Some REQUESTED)).
Proof.
  intros Hks Hpg. unfold requestPage.
  destruct (bool_decide (i > 0)
            && bool_decide (pages (data v) !! Z.to_N i = Some WAITING)
            && cursorSet (keyset (data v)) i) eqn:Hc; simpl; [|done].
  apply andb_prop in Hc as [Hc Hcur]. apply andb_prop in Hc as [Hi Hw].
  apply bool_decide_eq_true in Hi, Hw.
  split; [done|]. intros j.
  destruct (decide (j = Z.to_N i)) as [->|Hne].
  - right. rewrite lookup_insert_eq.
    destruct (Hpg (Z.to_N i)) as [E|(_ & _ & _ & E)]; [|congruence].
    rewrite Z2N.id by lia. rewrite <- Hks, <- E. repeat split; [lia|done..].
  - rewrite lookup_insert_ne by done. apply Hpg.
Qed.

Lemma requestRange_fold_inv (l : list Z) (v0 v : ResultsView)
    (sent : list BackMsg) :
  keyset (data v) = keyset (data v0) →
  (∀ j : N, pages (data v) !! j = pages (data v0) !! j
      ∨ ((0 < j)%N ∧ pages (data v0) !! j = Some WAITING
         ∧ cursorSet (keyset (data v0)) (Z.of_N j) = true
         ∧ pages (data v) !! j = Some REQUESTED)) →
  let v' := (foldl requestPage (v, sent) l).1 in
  keyset (data v') = keyset (data v0)
  ∧ (∀ j : N, pages (data v') !! j = pages (data v0) !! j
      ∨ ((0 < j)%N ∧ pages (data v0) !! j = Some WAITING
         ∧ cursorSet (keyset (data v0)) (Z.of_N j) = true
         ∧ pages (data v') !! j = Some REQUESTED)).
Proof.
  revert v sent. induction l as [|i l IH]; intros v sent Hks Hpg; cbn [foldl].
  - done.
  - destruct (requestPage_inv v0 v sent i Hks Hpg) as [Hks' Hpg'].
    destruct (requestPage (v, sent) i) as [v1 sent1]. by apply IH.
Qed.

Lemma requestRange_view_pages (sid start count : Z) (v : ResultsView) (j : N) :
  let v' := (requestRange_view sid start count v).1 in
  pages (data v') !! j ≠ pages (data v) !! j →
  searchId (data v) = sid
  ∧ (0 < j)%N ∧ pages (data v) !! j = Some WAITING
  ∧ cursorSet (keyset (data v)) (Z.of_N j) = true
  ∧ pages (data v') !! j = Some REQUESTED.
Proof.
  unfold requestRange_view. case_bool_decide as Hsid; simpl; [|done].
  intros Hne.
  destruct (requestRange_fold_inv (seqZ start count) v v [] eq_refl
              (λ j, or_introl eq_refl)) as [_ Hpg].
  destruct (Hpg j) as [E|(? & ? & ? & ?)]; [done|]. done.
Qed.

Lemma requestRange_view_stale (sid start count : Z) (v : ResultsView) :
  searchId (data v) ≠ sid → requestRange_view sid start count v = (v, []).
Proof. intros Hne. unfold requestRange_view. by rewrite bool_decide_eq_false_2. Qed.

(** C6. If [requestRange] changes the state of page [i] of some view,
    then that view is the one named in the request, the caller's
    [searchId] is the view's, [i > 0], the page was waiting, [keyset[i-1]]
    is set, and the page is now requested.  And when the caller's
    [searchId] is not the view's, the state is returned as it was and
    nothing is sent. *)
Theorem requestRange_page_dependency (state : SearchState) (view : string)
    (sid start count : Z) :
  (∀ (w : string) (i : N),
     pageState (requestRange state view sid start count).1 w i
       ≠ pageState state w i →
     ∃ v, w = view ∧ views state !! view = Some v
          ∧ searchId (data v) = sid
          ∧ (0 < i)%N
          ∧ pages (data v) !! i = Some WAITING
          ∧ cursorSet (keyset (data v)) (Z.of_N i) = true
          ∧ pageState (requestRange state view sid start count).1 w i
            = Some REQUESTED)
  ∧ (∀ v, views state !! view = Some v → searchId (data v) ≠ sid →
          requestRange state view sid start count = (state, [])).
Proof.
  split.
  - intros w i. unfold requestRange, pageState.
    destruct (views state !! view) as [v|] eqn:Hv; simpl; [|done].
    pose proof (requestRange_view_pages sid start count v i) as Hp.
    destruct (requestRange_view sid start count v) as [v' sent]. simpl in *.
    destruct (decide (view = w)) as [<-|Hne].
    + rewrite lookup_insert_eq, Hv. simpl. intros Hd.
      destruct (Hp Hd) as (? & ? & ? & ? & ?). by exists v.
    + by rewrite lookup_insert_ne by done.
  - intros v Hv Hne. unfold requestRange. rewrite Hv.
    rewrite requestRange_view_stale by done.
    by rewrite insert_id, set_views_same by done.
Qed.

(** ** The registry and the general view *)

Lemma ensureViews_keeps lib names (vs : gmap string ResultsView) w v :
  vs !! w = Some v → ensureViews lib names vs !! w = Some v.
Proof.
  unfold ensureViews. revert vs. induction names as [|n names IH]; intros vs Hw; simpl.
  - done.
  - apply IH. destruct (vs !! n) eqn:E; [done|].
    rewrite lookup_insert_ne; [done|]. intros ->. congruence.
Qed.

Lemma applyStored_keeps prefs keep stored (vs : gmap string ResultsView) w v :
  vs !! w = Some v →
  ∃ v', applyStored prefs keep stored vs !! w = Some v'
        ∧ id v' = id v ∧ data v' = data v.
Proof.
  unfold applyStored. revert vs v.
  induction stored as [|sv stored IH]; intros vs v Hw; simpl.
  - by exists v.
  - destruct (vs !! sv_view sv) as [u|] eqn:E; [|by apply IH].
    destruct (decide (sv_view sv = w)) as [Heq|Hne].
    + rewrite Heq in *. assert (u = v) as -> by congruence.
      edestruct IH as (v' & Hv' & Hid & Hd); [apply lookup_insert_eq|].
      exists v'. by rewrite Hv'.
    + apply IH. by rewrite lookup_insert_ne.
Qed.

Lemma applyRegistryOp_general op (w : SearchState * Preferences) g :
  sparesGeneral op →
  views w.1 !! GENERAL_VIEW_ID = Some g →
  ∃ g', views (applyRegistryOp w op).1 !! GENERAL_VIEW_ID = Some g'
        ∧ id g' = id g ∧ data g' = data g.
Proof.
  destruct w as [state prefs]. simpl. intros Hop Hg.
  destruct op as [names stored|view|old new|oldView view|names stored libs];
    simpl in *.
  - pose proof (ensureViews_keeps (λ _, None) names _ _ _ Hg) as He.
    destruct stored as [svs|]; [by apply applyStored_keeps|by exists g].
  - exists g. split; [|done].
    assert ((match views state !! view with
             | Some _ => delete view (views state)
             | None => views state
             end) !! GENERAL_VIEW_ID = Some g) as Hd.
    { destruct (views state !! view); [by rewrite lookup_delete_ne|done]. }
    case_bool_decide; [|done].
    rewrite lookup_insert_ne; [done|]. unfold GENERAL_VIEW_ID. discriminate.
  - destruct Hop as [Hold Hnew]. exists g. split; [|done].
    unfold renameView. destruct (views state !! old); [|done]. simpl.
    by rewrite lookup_delete_ne, lookup_insert_ne.
  - exists g. split; [|done]. unfold duplicateView.
    destruct (views state !! oldView) as [v|]; [|done].
    destruct (views state !! view) eqn:E; [done|]. simpl.
    rewrite lookup_insert_ne; [done|]. intros ->. congruence.
  - rewrite Hg.
    assert (({[GENERAL_VIEW_ID := g]} : gmap string ResultsView)
              !! GENERAL_VIEW_ID = Some g) as Hs by apply lookup_singleton_eq.
    pose proof (ensureViews_keeps
                  (λ view, if libs then Some view else None) names _ _ _ Hs).
    destruct stored as [svs|]; [by apply applyStored_keeps|by exists g].
Qed.

(** C8, as the code has it.  Over any sequence of [addViews],
    [deleteView], [renameView], [duplicateView] and [createViews] in which
    no [deleteView] names the general view and no [renameView] renames
    from or onto it, the general view stays in the registry under its
    key, with its [id] and its cache as they were. *)
Theorem general_view_kept (ops : list RegistryOp)
    (w : SearchState * Preferences) (g : ResultsView) :
  Forall sparesGeneral ops →
  views w.1 !! GENERAL_VIEW_ID = Some g →
  ∃ g', views (runRegistry ops w).1 !! GENERAL_VIEW_ID = Some g'
        ∧ id g' = id g ∧ data g' = data g.
Proof.
  intros Hops. revert w g.
  induction Hops as [|op ops Hop Hops IH]; intros w g Hg; simpl.
  - by exists g.
  - destruct (applyRegistryOp_general op w g Hop Hg) as (g1 & Hg1 & Hid1 & Hd1).
    destruct (IH _ _ Hg1) as (g2 & Hg2 & Hid2 & Hd2).
    exists g2. split; [done|]. split; congruence.
Qed.

(** ** Deleting the last view *)

(** C9. When the registry holds the general view and one other view,
    [deleteView] of that other view leaves the general view and a view
    "Browse" whose cache has [searchId] 0, no records, no pages and an
    empty keyset. *)
Theorem deleteView_last_synthesizes_browse (prefs : Preferences)
    (state : SearchState) (name : string) (g v : ResultsView) :
  name ≠ GENERAL_VIEW_ID →
  views state = <[name := v]> {[ GENERAL_VIEW_ID := g ]} →
  let browse := newView "Browse" None in
  views (deleteView prefs state name).1
    = <["Browse" := browse]> {[ GENERAL_VIEW_ID := g ]}
  ∧ id browse = "Browse"
  ∧ searchId (data browse) = 0 ∧ games (data browse) = ∅
  ∧ pages (data browse) = ∅ ∧ keyset (data browse) = []
  ∧ total (data browse) = None.
Proof.
  intros Hne Hviews browse. split; [|done].
  unfold deleteView. cbn [fst views set_views]. rewrite Hviews.
  rewrite lookup_insert_eq, delete_insert_eq.
  rewrite delete_id by by rewrite lookup_singleton_ne.
  by rewrite map_size_singleton, bool_decide_eq_true_2.
Qed.

(** ** Renaming onto an existing view *)

(** C10. When [old] names a view and [new] names another one,
    [renameView] is carried out: [new] now holds the view that was at
    [old], with [id] set to [new] and with the cache of [old]; [old] is
    gone; the view that was at [new] is in the registry no more, which is
    one view smaller; every other view is untouched. *)
Theorem renameView_overwrites (state : SearchState) (old new : string)
    (vo vn : ResultsView) :
  views state !! old = Some vo →
  views state !! new = Some vn →
  old ≠ new →
  let state' := renameView state old new in
  views state' !! new = Some (set_id new vo)
  ∧ data (set_id new vo) = data vo
  ∧ views state' !! old = None
  ∧ (∀ w, w ≠ old → w ≠ new → views state' !! w = views state !! w)
  ∧ S (size (views state')) = size (views state).
Proof.
  intros Ho Hn Hne state'. unfold state', renameView. rewrite Ho. simpl.
  rewrite lookup_delete_eq, lookup_delete_ne, lookup_insert_eq by done.
  repeat split; try done.
  - intros w Hwo Hwn. by rewrite lookup_delete_ne, lookup_insert_ne.
  - rewrite <- (insert_delete_id (views state) old vo) at 2 by done.
    rewrite map_size_insert_None by apply lookup_delete_eq.
    f_equal. rewrite delete_insert_ne by done.
    rewrite map_size_insert_Some; [done|]. by rewrite lookup_delete_ne.
Qed.

(** ** Reordering the playlist entries *)

Lemma findIndex_from_first {A} (p : A → bool) (l1 : list A) x l2 i :
  Forall (λ y, p y = false) l1 → p x = true →
  findIndex_from i p (l1 ++ x :: l2) = i + Z.of_nat (length l1).
Proof.
  intros Hl1 Hx. revert i. induction Hl1 as [|y l1 Hy Hl1 IH]; intros i; simpl.
  - rewrite Hx. lia.
  - rewrite Hy, IH. lia.
Qed.

Lemma findIndex_first {A} (p : A → bool) (l1 : list A) x l2 :
  Forall (λ y, p y = false) l1 → p x = true →
  findIndex p (l1 ++ x :: l2) = Z.of_nat (length l1).
Proof. intros. unfold findIndex. by rewrite findIndex_from_first. Qed.

Lemma splice_remove {A} (l1 : list A) x l2 :
  splice (Z.of_nat (length l1)) 1 [] (l1 ++ x :: l2) = l1 ++ l2.
Proof.
  unfold splice. rewrite bool_decide_eq_false_2 by lia.
  rewrite length_app. simpl.
  replace (Z.to_nat (Z.of_nat (length l1) `min`
                     Z.of_nat (length l1 + S (length l2)))) with (length l1)
    by lia.
  rewrite take_app_length. simpl. f_equal.
  rewrite drop_app_add'; [|done]. done.
Qed.





(** ** Reordering the records *)

#[local] Instance key_le_trans : Transitive key_le.
Proof. intros a b c. unfold key_le. lia. Qed.

#[local] Instance key_le_total : Total key_le.
Proof. intros a b. unfold key_le. lia. Qed.

Lemma fromEntries_list_to_map (es : list (N * ViewGame)) :
  NoDup es.*1 → fromEntries es = list_to_map es.
Proof.
  unfold fromEntries. induction es as [|[i x] es IH] using rev_ind; [done|].
  rewrite fmap_app, NoDup_app. intros (Hnd & Hni & _).
  rewrite foldl_snoc, IH by done. simpl.
  rewrite list_to_map_snoc; [done|]. intros Hi. apply (Hni i Hi). simpl. left.
Qed.

Lemma fromEntries_perm (es es' : list (N * ViewGame)) :
  NoDup es'.*1 → es ≡ₚ es' → fromEntries es = list_to_map es'.
Proof.
  intros Hnd Hp. rewrite fromEntries_list_to_map by by rewrite Hp.
  apply list_to_map_proper; [by rewrite Hp|done].
Qed.

Lemma elem_of_entries (gm : gmap N ViewGame) e :
  e ∈ entries gm ↔ gm !! e.1 = Some e.2.
Proof.
  unfold entries. rewrite merge_sort_Permutation. destruct e as [k g].
  apply elem_of_map_to_list.
Qed.

Lemma fromEntries_entries (gm : gmap N ViewGame) : fromEntries (entries gm) = gm.
Proof.
  rewrite (fromEntries_perm _ (map_to_list gm)).
  - apply list_to_map_to_list.
  - apply NoDup_fst_map_to_list.
  - apply merge_sort_Permutation.
Qed.




















(** ** The move as a whole *)





(** ** What [requestRange] requests *)

Lemma set_pages_same (d : ResultsViewData) : set_pages (pages d) d = d.
Proof. by destruct d. Qed.

Lemma view_data_same (v : ResultsView) : set_data (data v) v = v.
Proof. by destruct v. Qed.

Lemma markRequested_lookup (l : list Z) (pg : gmap N RequestState) (n : N) :
  markRequested pg l !! n
  = if decide (n ∈ Z.to_N <$> l) then Some REQUESTED else pg !! n.
Proof.
  unfold markRequested. revert pg. induction l as [|i l IH]; intros pg; cbn [foldl].
  - rewrite decide_False; [done|]. rewrite fmap_nil. apply not_elem_of_nil.
  - rewrite IH, fmap_cons. destruct (decide (n ∈ Z.to_N <$> l)) as [Hin|Hni].
    + rewrite decide_True; [done|]. by right.
    + destruct (decide (n = Z.to_N i)) as [->|Hne].
      * rewrite lookup_insert_eq. rewrite decide_True; [done|]. by left.
      * rewrite lookup_insert_ne by done. rewrite decide_False; [done|].
        by intros [?|?]%elem_of_cons.
Qed.

(** The loop of [requestRange] over a list of distinct page numbers,
    started from the view [v0] with a page table [P] that agrees with the
    one of [v0] on the pages still to come. *)
Lemma requestPage_fold (v0 : ResultsView) (l : list Z)
    (P : gmap N RequestState) (sent : list BackMsg) :
  NoDup l →
  (∀ j, j ∈ l → j > 0 → P !! Z.to_N j = pages (data v0) !! Z.to_N j) →
  foldl requestPage (set_data (set_pages P (data v0)) v0, sent) l
  = (set_data (set_pages (markRequested P
                            (filter (λ i, eligible v0 i = true) l))
                         (data v0)) v0,
     sent ++ (pageRequest v0 <$> filter (λ i, eligible v0 i = true) l)).
Proof.
  intros Hnd. revert P sent.
  induction Hnd as [|i l Hi Hnd IH]; intros P sent HP; cbn [foldl].
  - rewrite filter_nil. cbn. by rewrite app_nil_r.
  - assert (eligible (set_data (set_pages P (data v0)) v0) i = eligible v0 i)
      as Hel.
    { unfold eligible. cbn. destruct (bool_decide (i > 0)) eqn:Hpos; [|done].
      apply bool_decide_eq_true in Hpos.
      rewrite (HP i) by (done || by left). done. }
    unfold requestPage at 2. fold (eligible (set_data (set_pages P (data v0)) v0) i).
    rewrite Hel. destruct (eligible v0 i) eqn:He.
    + rewrite filter_cons_True by done. cbn [fmap list_fmap].
      change (set_data (set_pages (<[Z.to_N i:=REQUESTED]> (pages (data (set_data (set_pages P (data v0)) v0)))) (data (set_data (set_pages P (data v0)) v0))) (set_data (set_pages P (data v0)) v0))
        with (set_data (set_pages (<[Z.to_N i:=REQUESTED]> P) (data v0)) v0).
      rewrite IH.
      * unfold markRequested. cbn [foldl]. rewrite <- (assoc_L (++)). done.
      * intros j Hj Hpos. rewrite lookup_insert_ne; [apply HP; by (done || right)|].
        unfold eligible in He. apply andb_prop in He as [He _].
        apply andb_prop in He as [He _]. apply bool_decide_eq_true in He.
        intros Heq. assert (i = j) by lia. subst. done.
    + rewrite filter_cons_False by (by rewrite He). apply IH.
      intros j Hj Hpos. apply HP; by (done || right).
Qed.

(** The closed form of [requestRange] on a view with the caller's
    [searchId]. *)
Lemma requestRange_view_closed (sid start count : Z) (v : ResultsView) :
  searchId (data v) = sid →
  requestRange_view sid start count v
  = (set_data (set_pages (markRequested (pages (data v))
                            (requested v start count)) (data v)) v,
     pageRequest v <$> requested v start count).
Proof.
  intros Hsid. unfold requestRange_view. rewrite bool_decide_eq_true_2 by done.
  rewrite <- (view_data_same v) at 1. rewrite <- (set_pages_same (data v)) at 1.
  rewrite requestPage_fold; [done|apply NoDup_seqZ|done].
Qed.

Lemma filter_none {A} (P : A → Prop) `{∀ x, Decision (P x)} (l : list A) :
  (∀ x, x ∈ l → ¬ P x) → filter P l = [].
Proof.
  induction l as [|x l IH]; intros Hl; [done|].
  rewrite filter_cons_False by (apply Hl; by left).
  apply IH. intros y Hy. apply Hl. by right.
Qed.

Lemma elem_of_requested (v : ResultsView) (start count i : Z) :
  i ∈ requested v start count
  ↔ start ≤ i < start + count ∧ i > 0
    ∧ pages (data v) !! Z.to_N i = Some WAITING
    ∧ cursorSet (keyset (data v)) i = true.
Proof.
  unfold requested. rewrite list_elem_of_filter, elem_of_seqZ. unfold eligible.
  rewrite !andb_true_iff, !bool_decide_eq_true. tauto.
Qed.

(** Once the range was requested, no page of it is eligible any more. *)
Lemma requested_again (v : ResultsView) (start count : Z) :
  requested (set_data (set_pages (markRequested (pages (data v))
                                    (requested v start count)) (data v)) v)
            start count = [].
Proof.
  unfold requested at 1. apply filter_none. intros i Hi He.
  assert (eligible v i = true → False) as Hnot.
  { intros Hv. unfold eligible in He. cbn in He.
    rewrite markRequested_lookup in He. rewrite decide_True in He.
    - rewrite !andb_true_iff, bool_decide_eq_true in He.
      destruct He as [[_ He] _]. discriminate.
    - apply list_elem_of_fmap. exists i. split; [done|].
      unfold requested. apply list_elem_of_filter. done. }
  apply Hnot. unfold eligible in *. cbn in He.
  rewrite markRequested_lookup in He.
  destruct (decide (Z.to_N i ∈ Z.to_N <$> requested v start count)).
  - rewrite !andb_true_iff, bool_decide_eq_true in He.
    destruct He as [[_ He] _]. discriminate.
  - done.
Qed.

(** X1. What [requestRange] does for a caller with the view's
    [searchId].  The pages it requests are those of the range with
    [i > 0] that are waiting and whose cursor [keyset[i-1]] is set; each of
    them is marked requested, one [BROWSE_VIEW_PAGE] message per page is
    sent in ascending order, carrying the view's filter with that page
    and cursor, and nothing else of the view or the state changes. *)
Theorem requestRange_exact (state : SearchState) (view : string)
    (sid start count : Z) (v : ResultsView) :
  views state !! view = Some v →
  searchId (data v) = sid →
  requestRange state view sid start count
  = (set_views
       (<[view := set_data (set_pages (markRequested (pages (data v))
                                         (requested v start count))
                                      (data v)) v]> (views state)) state,
     pageRequest v <$> requested v start count)
  ∧ (∀ i, i ∈ requested v start count
          ↔ start ≤ i < start + count ∧ i > 0
            ∧ pages (data v) !! Z.to_N i = Some WAITING
            ∧ cursorSet (keyset (data v)) i = true)
  ∧ (∀ n, markRequested (pages (data v)) (requested v start count) !! n
          = if decide (n ∈ Z.to_N <$> requested v start count)
            then Some REQUESTED else pages (data v) !! n).
Proof.
  intros Hv Hsid. split; [|split].
  - unfold requestRange. rewrite Hv. by rewrite requestRange_view_closed.
  - intros i. apply elem_of_requested.
  - intros n. apply markRequested_lookup.
Qed.

(** X2. Asking for the same range again sends nothing and changes
    nothing, whatever the state, the view name and the caller's
    [searchId]. *)
Theorem requestRange_repeat (state : SearchState) (view : string)
    (sid start count : Z) :
  let r := requestRange state view sid start count in
  requestRange r.1 view sid start count = (r.1, []).
Proof.
  unfold requestRange. destruct (views state !! view) as [v|] eqn:Hv; cbn.
  - destruct (decide (searchId (data v) = sid)) as [Hsid|Hsid].
    + rewrite requestRange_view_closed by done. cbn.
      rewrite lookup_insert_eq.
      rewrite requestRange_view_closed by done.
      rewrite requested_again. cbn. rewrite insert_insert_eq.
      reflexivity.
    + rewrite requestRange_view_stale by done. cbn.
      rewrite lookup_insert_eq. rewrite requestRange_view_stale by done.
      by rewrite insert_insert_eq.
  - by rewrite Hv.
Qed.

(** ** The reducer as a whole *)

Lemma requestRange_on_view state view sid start count :
  (requestRange state view sid start count).1
  = on_view (λ v, (requestRange_view sid start count v).1) view state.
Proof.
  unfold requestRange, on_view. destruct (views state !! view) as [v|]; [|done].
  by destruct (requestRange_view sid start count v).
Qed.

Lemma movePlaylistGame_on_view state view src dst :
  (movePlaylistGame state view src dst).1
  = on_view (λ v, (movePlaylistGame_view src dst v).1) view state.
Proof.
  unfold movePlaylistGame, on_view. destruct (views state !! view) as [v|]; [|done].
  by destruct (movePlaylistGame_view src dst v).
Qed.

Lemma stepReset_id d v : id (stepReset d v) = id v.
Proof. unfold stepReset. by case_bool_decide. Qed.

Lemma stepTotal_id d v : id (stepTotal d v) = id v.
Proof. unfold stepTotal. by destruct (ad_total d). Qed.

Lemma stepKeyset_id d v : id (stepKeyset d v) = id v.
Proof. unfold stepKeyset. by destruct (ad_keyset d). Qed.

Lemma stepPages_id d v : id (stepPages d v) = id v.
Proof. unfold stepPages. by destruct (ad_pages d). Qed.

Lemma stepGames_id d v : id (stepGames d v) = id v.
Proof.
  unfold stepGames. destruct (ad_page d), (ad_games d); try done.
  by case_match.
Qed.

Lemma addData_view_id d v : id (addData_view d v) = id v.
Proof.
  unfold addData_view. case_bool_decide; [done|].
  by rewrite stepGames_id, stepPages_id, stepKeyset_id, stepTotal_id,
    stepReset_id.
Qed.

Lemma gentle_addData d : gentle true (addData_view d).
Proof.
  intros v. split; [apply addData_view_id|]. split; [|done].
  rewrite addData_view_searchId. lia.
Qed.

Lemma gentle_setSearchId sid : gentle true (setSearchId_view sid).
Proof.
  intros v. split; [|split; [|done]].
  - unfold setSearchId_view. by case_bool_decide.
  - rewrite setSearchId_view_searchId. lia.
Qed.

Lemma gentle_setFilter filter : gentle true (setFilter_view filter).
Proof.
  intros v. unfold setFilter_view. case_bool_decide; cbn; repeat split; done || lia.
Qed.

Lemma gentle_requestRange sid start count :
  gentle true (λ v, (requestRange_view sid start count v).1).
Proof.
  intros v. destruct (decide (searchId (data v) = sid)) as [Hsid|Hsid].
  - rewrite requestRange_view_closed by done. cbn. repeat split; done || lia.
  - rewrite requestRange_view_stale by done. cbn. repeat split; done || lia.
Qed.

Lemma gentle_movePlaylistGame src dst :
  gentle true (λ v, (movePlaylistGame_view src dst v).1).
Proof.
  intros v. unfold movePlaylistGame_view.
  destruct (selectedPlaylist v) as [pl|]; [|cbn; repeat split; done || lia].
  destruct (pl_games pl !! _); [|cbn; repeat split; done || lia].
  destruct (_ && _); cbn; repeat split; done || lia.
Qed.

Lemma gentle_restore t af ob orv e :
  gentle false (λ v, restore (t v) (af v) (ob v) (orv v) (e v) v).
Proof. intros v. cbn. repeat split; done || lia. Qed.

Lemma gentle_scroll c r t l :
  gentle false (λ v, set_scroll (c v) (r v) (t v) (l v) v).
Proof. intros v. cbn. repeat split; done || lia. Qed.

Lemma gentle_selectedGame g : gentle false (set_selectedGame g).
Proof. intros v. cbn. repeat split; done || lia. Qed.

Lemma gentle_selectedPlaylist p : gentle false (set_selectedPlaylist p).
Proof. intros v. cbn. repeat split; done || lia. Qed.

Lemma gentle_updateGame g : gentle false (updateGame_view g).
Proof.
  intros v. unfold updateGame_view. destruct (selectedGame v); [|repeat split; done || lia].
  case_bool_decide; cbn; repeat split; done || lia.
Qed.

Lemma gentle_id c : gentle c (λ v, v).
Proof. intros v. repeat split; done || lia. Qed.

Lemma gentle_weaken f : gentle false f → gentle true f.
Proof. intros Hf v. destruct (Hf v) as (? & ? & ?). repeat split; done. Qed.

Lemma on_view_gentle c g view s k :
  gentle c g →
  ∃ f, gentle c f ∧ views (on_view g view s) !! k = f <$> views s !! k.
Proof.
  intros Hg. rewrite on_view_lookup. destruct (decide (view = k)).
  - by exists g.
  - exists (λ v, v). split; [apply gentle_id|]. by rewrite option_fmap_id.
Qed.

(** One step of an action that is no registry operation, seen from any one
    key of the registry. *)
Lemma reduce_gentle (a : Action) (w : World) (k : string) :
  keepsRegistry a = true →
  preferences (reduce w a) = preferences w
  ∧ dropdowns (store (reduce w a)) = dropdowns (store w)
  ∧ ∃ f, gentle (touchesCache a) f
         ∧ views (store (reduce w a)) !! k = f <$> views (store w) !! k
         ∧ (∀ view, target a = Some view → view ≠ k → f = (λ v, v)).
Proof.
  assert (∀ c g view s,
            gentle c g →
            dropdowns (on_view g view s) = dropdowns s
            ∧ ∃ f, gentle c f
                   ∧ views (on_view g view s) !! k = f <$> views s !! k
                   ∧ (∀ view', Some view = Some view' → view' ≠ k →
                               f = (λ v, v))) as Hon.
  { intros c g view s Hg. split.
    - unfold on_view. by destruct (views s !! view).
    - rewrite on_view_lookup. destruct (decide (view = k)) as [->|Hne].
      + exists g. split; [done|]. split; [done|]. intros ? [= <-] ?. done.
      + exists (λ v, v). split; [apply gentle_id|].
        split; [by rewrite option_fmap_id|done]. }
  intros Hk. destruct a; try discriminate Hk; cbn [reduce target touchesCache];
    unfold withSent, withStore; cbn [store preferences];
    rewrite ?requestRange_on_view, ?movePlaylistGame_on_view;
    (split; [done|]).
  - apply (Hon false), (gentle_restore (λ _, text')).
  - apply (Hon false), gentle_selectedPlaylist.
  - apply (Hon false), gentle_selectedGame.
  - apply (Hon true), gentle_setFilter.
  - apply (Hon true), gentle_setSearchId.
  - apply (Hon false), (gentle_restore _ _ (λ _, value)).
  - apply (Hon false), (gentle_restore _ _ _ (λ _, value)).
  - apply (Hon false), (gentle_restore _ (λ _, filter)).
  - apply (Hon true), gentle_requestRange.
  - apply (Hon true), gentle_movePlaylistGame.
  - split; [done|]. exists (updateGame_view game).
    split; [apply gentle_updateGame|]. split; [|done].
    unfold updateGame. cbn. apply lookup_fmap.
  - apply (Hon false), (gentle_restore _ _ _ _ (λ _, e)).
  - apply (Hon false), (gentle_scroll (λ _, Some col) (λ _, Some row)).
  - apply (Hon false), (gentle_scroll _ _ (λ _, Some scrollTop)).
  - apply (Hon false), (gentle_scroll _ _ _ (λ _, Some row)).
  - apply (Hon true), gentle_addData.
Qed.

Lemma target_keepsRegistry a view : target a = Some view → keepsRegistry a = true.
Proof. by destruct a. Qed.

(** X3. An action on one view leaves every other view as it was, adds and
    removes no view, and leaves the dropdowns and the preferences
    alone. *)
Theorem other_views_untouched (a : Action) (w : World) (view : string) :
  target a = Some view →
  (∀ k, k ≠ view → views (store (reduce w a)) !! k = views (store w) !! k)
  ∧ dom (views (store (reduce w a))) = dom (views (store w))
  ∧ dropdowns (store (reduce w a)) = dropdowns (store w)
  ∧ preferences (reduce w a) = preferences w.
Proof.
  intros Ht. pose proof (target_keepsRegistry a view Ht) as Hk.
  split; [|split; [|split]].
  - intros k Hne.
    destruct (reduce_gentle a w k Hk) as (_ & _ & f & _ & -> & Hf).
    rewrite (Hf view Ht (not_eq_sym Hne)). by rewrite option_fmap_id.
  - apply set_eq. intros k. rewrite !elem_of_dom.
    destruct (reduce_gentle a w k Hk) as (_ & _ & f & _ & -> & _).
    by rewrite fmap_is_Some.
  - by destruct (reduce_gentle a w view Hk) as (_ & ? & _).
  - by destruct (reduce_gentle a w view Hk) as (? & _).
Qed.

(** X4. Over any sequence of actions that are no registry operations, a
    view stays in the registry, keeps its [id], and its [data.searchId]
    does not go down. *)
Theorem views_persist (acts : list Action) (w : World) (k : string)
    (v : ResultsView) :
  Forall (λ a, keepsRegistry a = true) acts →
  views (store w) !! k = Some v →
  ∃ v', views (store (run acts w)) !! k = Some v'
        ∧ id v' = id v
        ∧ searchId (data v) ≤ searchId (data v').
Proof.
  intros Hacts. revert w v. unfold run.
  induction Hacts as [|a acts Ha Hacts IH]; intros w v Hv; cbn [foldl].
  - exists v. repeat split; done || lia.
  - destruct (reduce_gentle a w k Ha) as (_ & _ & f & Hf & Hlook & _).
    rewrite Hv in Hlook. cbn in Hlook.
    destruct (IH _ _ Hlook) as (v' & Hv' & Hid & Hsid).
    destruct (Hf v) as (Hid1 & Hsid1 & _).
    exists v'. split; [done|]. split; [congruence|lia].
Qed.

Lemma reduce_outbox (a : Action) (w : World) :
  touchesCache a = false → outbox (reduce w a) = outbox w.
Proof. by destruct a. Qed.

(** X5. The actions that only set query text, ordering, filter,
    selection, expansion and scroll position (and [updateGame]) never
    touch a cache and never send a message: over any sequence of them the
    cache of every view is what it was. *)
Theorem caches_untouched (acts : list Action) (w : World) :
  Forall (λ a, keepsRegistry a = true ∧ touchesCache a = false) acts →
  (∀ k, data <$> views (store (run acts w)) !! k
        = data <$> views (store w) !! k)
  ∧ outbox (run acts w) = outbox w
  ∧ preferences (run acts w) = preferences w.
Proof.
  intros Hacts. revert w. unfold run.
  induction Hacts as [|a acts [Ha Hc] Hacts IH]; intros w; cbn [foldl].
  - done.
  - destruct (IH (reduce w a)) as (Hd & Ho & Hp). split; [|split].
    + intros k. rewrite Hd.
      destruct (reduce_gentle a w k Ha) as (_ & _ & f & Hf & -> & _).
      destruct (views (store w) !! k) as [v|]; [|done]. cbn.
      destruct (Hf v) as (_ & _ & Hdata). by rewrite Hdata.
    + by rewrite Ho, reduce_outbox.
    + rewrite Hp. by destruct (reduce_gentle a w "" Ha) as (? & _).
Qed.

(** ** Every view under its own id *)

Lemma wellKeyed_ensureViews lib names (vs : gmap string ResultsView) :
  (∀ k v, vs !! k = Some v → id v = k) →
  ∀ k v, ensureViews lib names vs !! k = Some v → id v = k.
Proof.
  unfold ensureViews. revert vs.
  induction names as [|n names IH]; intros vs Hvs; cbn [foldl]; [done|].
  apply IH. destruct (vs !! n) eqn:E; [done|].
  intros k v. rewrite lookup_insert. case_decide; [|by apply Hvs].
  intros [= <-]. done.
Qed.

Lemma wellKeyed_applyStored prefs keep stored (vs : gmap string ResultsView) :
  (∀ k v, vs !! k = Some v → id v = k) →
  ∀ k v, applyStored prefs keep stored vs !! k = Some v → id v = k.
Proof.
  unfold applyStored. revert vs.
  induction stored as [|sv stored IH]; intros vs Hvs; cbn [foldl]; [done|].
  apply IH. destruct (vs !! sv_view sv) as [u|] eqn:E; [|done].
  intros k v. rewrite lookup_insert. case_decide; [|by apply Hvs].
  intros [= <-]. cbn. subst. by apply Hvs.
Qed.

Lemma wellKeyed_reduce (a : Action) (w : World) :
  wellKeyed (store w) → wellKeyed (store (reduce w a)).
Proof.
  intros Hw. destruct (keepsRegistry a) eqn:Hk.
  - intros k v Hv.
    destruct (reduce_gentle a w k Hk) as (_ & _ & f & Hf & Hlook & _).
    rewrite Hlook in Hv. destruct (views (store w) !! k) as [u|] eqn:E; [|done].
    cbn in Hv. injection Hv as <-. destruct (Hf u) as (-> & _). by apply Hw.
  - destruct a; try discriminate Hk; cbn [reduce]; unfold withStore;
      cbn [store]; intros k v; cbn [views set_views].
    + unfold addViews. cbn [views set_views].
      destruct storedViews;
        [apply wellKeyed_applyStored|]; by apply wellKeyed_ensureViews.
    + unfold deleteView. cbn [fst views set_views].
      assert (∀ k v, (match views (store w) !! view with
                      | Some _ => delete view (views (store w))
                      | None => views (store w)
                      end) !! k = Some v → id v = k) as Hd.
      { intros k' v'. destruct (views (store w) !! view); [|apply Hw].
        rewrite lookup_delete. case_decide; [done|apply Hw]. }
      case_bool_decide; [|apply Hd].
      rewrite lookup_insert. case_decide; [|apply Hd]. by intros [= <-].
    + unfold renameView. destruct (views (store w) !! old); [|apply Hw].
      cbn [views set_views]. rewrite lookup_delete. case_decide; [done|].
      rewrite lookup_insert. case_decide; [|apply Hw]. by intros [= <-].
    + unfold duplicateView. destruct (views (store w) !! oldView); [|apply Hw].
      destruct (views (store w) !! view); [apply Hw|].
      cbn [views set_views]. rewrite lookup_insert. case_decide; [|apply Hw].
      by intros [= <-].
    + unfold createViews. cbn [views set_views].
      assert (∀ k v, (match views (store w) !! GENERAL_VIEW_ID with
                      | Some generalState =>
                          ({[GENERAL_VIEW_ID := generalState]}
                             : gmap string ResultsView)
                      | None => ∅
                      end) !! k = Some v → id v = k) as Hc.
      { intros k' v'. destruct (views (store w) !! GENERAL_VIEW_ID) eqn:E;
          [|by rewrite lookup_empty].
        rewrite lookup_singleton. case_decide; [|done].
        intros [= <-]. subst. by apply Hw. }
      destruct storedViews;
        [apply wellKeyed_applyStored|]; by apply wellKeyed_ensureViews.
Qed.

Lemma general_reduce (a : Action) (w : World) :
  plainAction a →
  is_Some (views (store w) !! GENERAL_VIEW_ID) →
  is_Some (views (store (reduce w a)) !! GENERAL_VIEW_ID).
Proof.
  intros Hp [g Hg]. destruct (keepsRegistry a) eqn:Hk.
  - destruct (reduce_gentle a w GENERAL_VIEW_ID Hk) as (_ & _ & f & _ & Hlook & _).
    rewrite Hlook, Hg. by eexists.
  - assert (∀ op, sparesGeneral op →
              is_Some (views (applyRegistryOp (store w, preferences w) op).1
                         !! GENERAL_VIEW_ID)) as Hop.
    { intros op Hs.
      destruct (applyRegistryOp_general op (store w, preferences w) g Hs Hg)
        as (g' & Hg' & _).
      by exists g'. }
    destruct a; try discriminate Hk; cbn [reduce]; unfold withStore;
      cbn [store].
    + exact (Hop (OpAddViews names storedViews) I).
    + exact (Hop (OpDeleteView view) Hp).
    + destruct Hp as (Hold & Hnew & _).
      exact (Hop (OpRenameView old new) (conj Hold Hnew)).
    + exact (Hop (OpDuplicateView oldView view) I).
    + exact (Hop (OpCreateViews names storedViews areLibraries) I).
Qed.

(** X6. In every state the reducer reaches from the initial state, with
    any preferences, by actions that neither delete the general view nor
    rename from or onto it, and whose registry operations name no property
    that an object inherits, the general view exists and each view is
    stored under its own [id]. *)
Theorem reachable_wellKeyed (acts : list Action) (prefs : Preferences) :
  Forall plainAction acts →
  let s := store (run acts {| store := initialState; preferences := prefs;
                              outbox := [] |}) in
  wellKeyed s ∧ is_Some (views s !! GENERAL_VIEW_ID).
Proof.
  intros Hacts. cbn zeta.
  assert (∀ w, wellKeyed (store w)
               ∧ is_Some (views (store w) !! GENERAL_VIEW_ID) →
               wellKeyed (store (run acts w))
               ∧ is_Some (views (store (run acts w)) !! GENERAL_VIEW_ID))
    as Hrun.
  { unfold run. induction Hacts as [|a acts Ha Hacts IH]; intros w [Hw Hg];
      cbn [foldl]; [done|].
    apply IH. split; [by apply wellKeyed_reduce|by apply general_reduce]. }
  apply Hrun. split.
  - intros k v. cbn [store views initialState].
    rewrite lookup_singleton. case_decide; [|done]. by intros [= <-].
  - exists defaultGeneralState. apply lookup_singleton_eq.
Qed.

(** ** How cache operations compose *)

Lemma on_view_compose (f g : ResultsView → ResultsView) view state :
  on_view f view (on_view g view state) = on_view (λ v, f (g v)) view state.
Proof.
  unfold on_view. destruct (views state !! view) as [v|] eqn:Hv; cbn.
  - rewrite lookup_insert_eq. cbn. by rewrite insert_insert_eq.
  - by rewrite Hv.
Qed.

Lemma on_view_ext (f g : ResultsView → ResultsView) view state :
  (∀ v, f v = g v) → on_view f view state = on_view g view state.
Proof.
  intros Hfg. unfold on_view. destruct (views state !! view); [|done].
  by rewrite Hfg.
Qed.

(** X7. Announcing a search with [setSearchId] and then applying a
    response of that search gives the state that applying the response
    alone gives. *)
Theorem addData_after_setSearchId (state : SearchState) (view : string)
    (d : SearchAddDataActionData) :
  addData (setSearchId state view (ad_searchId d)) view d
  = addData state view d.
Proof.
  unfold addData, setSearchId. rewrite on_view_compose. apply on_view_ext.
  intros v. unfold setSearchId_view. case_bool_decide as Hlt; [|done].
  unfold addData_view, stepReset. cbn [data set_data searchId resetData].
  rewrite (bool_decide_eq_false_2 (ad_searchId d > ad_searchId d)) by lia.
  rewrite (bool_decide_eq_false_2 (ad_searchId d < ad_searchId d)) by lia.
  rewrite (bool_decide_eq_false_2 (searchId (data v) > ad_searchId d)) by lia.
  by rewrite (bool_decide_eq_true_2 (searchId (data v) < ad_searchId d)).
Qed.

Lemma writeGames_commute (i1 i2 : N) (gs1 gs2 : list ViewGame)
    (m : gmap N ViewGame) :
  (i1 + N.of_nat (length gs1) ≤ i2 ∨ i2 + N.of_nat (length gs2) ≤ i1)%N →
  writeGames i1 gs1 (writeGames i2 gs2 m)
  = writeGames i2 gs2 (writeGames i1 gs1 m).
Proof.
  intros Hd. apply map_eq. intros k. rewrite !writeGames_lookup.
  repeat case_decide; try done; lia.
Qed.

Lemma page_ranges_apart (p1 p2 : N) (n1 n2 : nat) :
  p1 ≠ p2 →
  (N.of_nat n1 ≤ VIEW_PAGE_SIZE)%N → (N.of_nat n2 ≤ VIEW_PAGE_SIZE)%N →
  (VIEW_PAGE_SIZE * p1 + N.of_nat n1 ≤ VIEW_PAGE_SIZE * p2
   ∨ VIEW_PAGE_SIZE * p2 + N.of_nat n2 ≤ VIEW_PAGE_SIZE * p1)%N.
Proof.
  intros Hne H1 H2. destruct (decide (p1 < p2)%N).
  - left. nia.
  - right. nia.
Qed.

Lemma addData_view_page sid page gs v :
  addData_view (pageResponse sid page gs) v
  = if bool_decide (searchId (data v) > sid) then v
    else stepGames (pageResponse sid page gs)
                   (stepReset (pageResponse sid page gs) v).
Proof. done. Qed.

Lemma stepGames_page_commute sid p1 gs1 p2 gs2 v :
  p1 ≠ p2 →
  (N.of_nat (length gs1) ≤ VIEW_PAGE_SIZE)%N →
  (N.of_nat (length gs2) ≤ VIEW_PAGE_SIZE)%N →
  stepGames (pageResponse sid p2 gs2) (stepGames (pageResponse sid p1 gs1) v)
  = stepGames (pageResponse sid p1 gs1) (stepGames (pageResponse sid p2 gs2) v).
Proof.
  intros Hne H1 H2.
  pose proof (page_ranges_apart p1 p2 _ _ Hne H1 H2) as Hapart.
  destruct v as [? ? ? ? dt ? ? ? ? ? ? ? ? ? ? ? ?], dt.
  unfold stepGames, pageResponse. cbv beta iota zeta delta [ad_page ad_games].
  destruct (bool_decide (p1 = 0%N) && bool_decide (length gs1 = 0%nat)),
    (bool_decide (p2 = 0%N) && bool_decide (length gs2 = 0%nat));
    cbv beta iota zeta delta
      [set_data set_pages set_games set_total set_metaState
       data games pages total keyset metaState searchId
       id library selectedGame selectedPlaylist orderBy orderReverse text
       textPositions advancedFilter searchFilter loaded expanded
       gridScrollCol gridScrollRow gridScrollTop listScrollRow];
    try reflexivity.
  rewrite (writeGames_commute (VIEW_PAGE_SIZE * p2) (VIEW_PAGE_SIZE * p1))
    by tauto.
  by rewrite (insert_insert_ne _ p2 p1).
Qed.

(** X8. Two page responses of one search, for different pages, each no
    longer than a page and with page number and offsets that the numbers
    of the language hold exactly, can arrive in either order: the
    resulting state is the same. *)
Theorem page_responses_commute (state : SearchState) (view : string)
    (sid : Z) (p1 p2 : N) (gs1 gs2 : list ViewGame) :
  p1 ≠ p2 →
  (N.of_nat (length gs1) ≤ VIEW_PAGE_SIZE)%N →
  (N.of_nat (length gs2) ≤ VIEW_PAGE_SIZE)%N →
  exactOffsets p1 gs1 → exactOffsets p2 gs2 →
  addData (addData state view (pageResponse sid p1 gs1)) view
          (pageResponse sid p2 gs2)
  = addData (addData state view (pageResponse sid p2 gs2)) view
            (pageResponse sid p1 gs1).
Proof.
  intros Hne H1 H2 _ _. unfold addData. rewrite !on_view_compose.
  apply on_view_ext. intros v. rewrite !addData_view_page.
  destruct (bool_decide (searchId (data v) > sid)) eqn:Hstale.
  - by rewrite Hstale.
  - apply bool_decide_eq_false in Hstale.
    assert (∀ p gs u, searchId (data u) = Z.max (searchId (data v)) sid →
              searchId (data (stepGames (pageResponse sid p gs) u)) = sid)
      as Hsid.
    { intros p gs u Hu. rewrite stepGames_searchId. lia. }
    assert (∀ p gs, searchId (data (stepReset (pageResponse sid p gs) v))
                    = Z.max (searchId (data v)) sid) as Hr
      by (intros; apply stepReset_searchId).
    rewrite !bool_decide_eq_false_2 by (rewrite Hsid; [lia|apply Hr]).
    assert (∀ p gs u, searchId (data u) = sid →
              stepReset (pageResponse sid p gs) u = u) as Hnoreset.
    { intros p gs u Hu. unfold stepReset. cbn [ad_searchId pageResponse].
      by rewrite bool_decide_eq_false_2 by lia. }
    rewrite (Hnoreset p2 gs2 (stepGames (pageResponse sid p1 gs1) _))
      by apply Hsid, Hr.
    rewrite (Hnoreset p1 gs1 (stepGames (pageResponse sid p2 gs2) _))
      by apply Hsid, Hr.
    change (stepReset (pageResponse sid p2 gs2) v)
      with (stepReset (pageResponse sid p1 gs1) v).
    by apply stepGames_page_commute.
Qed.

Lemma stepTotal_games d v : games (data (stepTotal d v)) = games (data v).
Proof. unfold stepTotal. by destruct (ad_total d). Qed.

Lemma stepKeyset_games d v : games (data (stepKeyset d v)) = games (data v).
Proof. unfold stepKeyset. by destruct (ad_keyset d). Qed.

Lemma stepPages_games d v : games (data (stepPages d v)) = games (data v).
Proof. unfold stepPages. by destruct (ad_pages d). Qed.

(** X9. Where the records of a response land.  For a response that is
    not stale and carries a page of records (other than an empty first
    page), with page number and offsets that the numbers of the language
    hold exactly, record [i] of the page is afterwards at offset
    [VIEW_PAGE_SIZE * page + i], the page is received, the cache's fetch
    state is received and its [searchId] is the response's; every other
    offset holds what it held, or nothing if the response superseded the
    cache. *)
Theorem addData_records_land (state : SearchState) (view : string)
    (d : SearchAddDataActionData) (v : ResultsView) (page : N)
    (gs : list ViewGame) :
  views state !! view = Some v →
  searchId (data v) ≤ ad_searchId d →
  ad_page d = Some page → ad_games d = Some gs →
  ¬ (page = 0%N ∧ gs = []) →
  exactOffsets page gs →
  ∃ v', views (addData state view d) !! view = Some v'
    ∧ (∀ i g, gs !! i = Some g →
              games (data v') !! (VIEW_PAGE_SIZE * page + N.of_nat i)%N
              = Some g)
    ∧ (∀ k, ¬ (VIEW_PAGE_SIZE * page ≤ k
               < VIEW_PAGE_SIZE * page + N.of_nat (length gs))%N →
            games (data v') !! k
            = if bool_decide (searchId (data v) < ad_searchId d) then None
              else games (data v) !! k)
    ∧ pages (data v') !! page = Some RECEIVED
    ∧ metaState (data v') = RECEIVED
    ∧ searchId (data v') = ad_searchId d.
Proof.
  intros Hv Hle Hpage Hgames Hnot _. exists (addData_view d v).
  split. { unfold addData. by rewrite on_view_lookup, decide_True, Hv. }
  assert (addData_view d v
          = stepGames d (stepPages d (stepKeyset d (stepTotal d (stepReset d v)))))
    as Hadd.
  { unfold addData_view. by rewrite bool_decide_eq_false_2 by lia. }
  set (u := stepPages d (stepKeyset d (stepTotal d (stepReset d v)))) in *.
  assert (games (data u)
          = if bool_decide (searchId (data v) < ad_searchId d) then ∅
            else games (data v)) as Hu.
  { unfold u. rewrite stepPages_games, stepKeyset_games, stepTotal_games.
    unfold stepReset. by case_bool_decide. }
  assert (bool_decide (page = 0%N) && bool_decide (length gs = 0%nat) = false)
    as Hcond.
  { apply andb_false_iff. destruct (decide (page = 0%N)) as [->|];
      [right|left]; apply bool_decide_eq_false; [|done].
    intros Hl. apply Hnot. split; [done|]. by apply nil_length_inv. }
  assert (games (data (addData_view d v))
          = writeGames (VIEW_PAGE_SIZE * page) gs (games (data u))) as Hg.
  { rewrite Hadd. unfold stepGames. by rewrite Hpage, Hgames, Hcond. }
  split; [|split; [|split; [|split]]].
  - intros i g Hi. rewrite Hg, writeGames_lookup.
    pose proof (lookup_lt_Some _ _ _ Hi). rewrite decide_True by lia.
    by replace (N.to_nat (VIEW_PAGE_SIZE * page + N.of_nat i
                          - VIEW_PAGE_SIZE * page)) with i by lia.
  - intros k Hk. rewrite Hg, writeGames_lookup, decide_False by done.
    rewrite Hu.
    destruct (bool_decide (searchId (data v) < ad_searchId d));
      [apply lookup_empty|done].
  - rewrite Hadd. unfold stepGames. rewrite Hpage, Hgames, Hcond. cbn.
    apply lookup_insert_eq.
  - rewrite Hadd. unfold stepGames. rewrite Hpage, Hgames. by case_match.
  - rewrite addData_view_searchId. lia.
Qed.

(** ** Replacing the filter *)

Lemma setFilter_view_twice f1 f2 v :
  sq_searchId f1 < sq_searchId f2 →
  setFilter_view f2 (setFilter_view f1 v) = setFilter_view f2 v
  ∧ setFilter_view f1 (setFilter_view f2 v) = setFilter_view f2 v.
Proof.
  intros Hlt. unfold setFilter_view.
  destruct (decide (sq_searchId (searchFilter v) < sq_searchId f1)) as [H1|H1].
  - rewrite (bool_decide_eq_true_2 _ H1).
    rewrite (bool_decide_eq_true_2 (sq_searchId (searchFilter v) < sq_searchId f2))
      by lia.
    cbn [searchFilter set_data set_searchFilter].
    rewrite (bool_decide_eq_true_2 _ Hlt).
    by rewrite (bool_decide_eq_false_2 (sq_searchId f2 < sq_searchId f1)) by lia.
  - rewrite (bool_decide_eq_false_2 _ H1). split; [done|].
    destruct (decide (sq_searchId (searchFilter v) < sq_searchId f2)) as [H2|H2].
    + rewrite (bool_decide_eq_true_2 _ H2).
      cbn [searchFilter set_data set_searchFilter].
      by rewrite (bool_decide_eq_false_2 (sq_searchId f2 < sq_searchId f1)) by lia.
    + rewrite (bool_decide_eq_false_2 _ H2).
      by rewrite (bool_decide_eq_false_2 _ H1).
Qed.

(** X10. Of two compiled filters for one view, the one with the greater
    [searchId] wins whatever the order in which they arrive; the other is
    dropped without a trace.  [setFilter] never changes a
    [data.searchId]. *)
Theorem setFilter_latest_wins (state : SearchState) (f1 f2 : SearchQuery) :
  viewId f1 = viewId f2 →
  sq_searchId f1 < sq_searchId f2 →
  setFilter (setFilter state f1) f2 = setFilter state f2
  ∧ setFilter (setFilter state f2) f1 = setFilter state f2
  ∧ ∀ k, (λ v, searchId (data v)) <$> views (setFilter state f2) !! k
         = (λ v, searchId (data v)) <$> views state !! k.
Proof.
  intros Hview Hlt. unfold setFilter. rewrite Hview, !on_view_compose.
  split; [|split].
  - apply on_view_ext. intros v. by apply setFilter_view_twice.
  - apply on_view_ext. intros v. by apply setFilter_view_twice.
  - intros k. rewrite on_view_lookup. case_decide; [|done].
    destruct (views state !! k) as [v|]; [|done]. cbn. f_equal.
    unfold setFilter_view. by case_bool_decide.
Qed.

(** ** Adding and replacing views *)

Lemma dom_ensureViews lib names (vs : gmap string ResultsView) :
  dom (ensureViews lib names vs) = dom vs ∪ list_to_set names.
Proof.
  unfold ensureViews. revert vs.
  induction names as [|n names IH]; intros vs; cbn [foldl].
  - rewrite list_to_set_nil. set_solver.
  - rewrite IH, list_to_set_cons. destruct (vs !! n) eqn:E.
    + apply (elem_of_dom_2 (D:=gset string)) in E. set_solver.
    + rewrite dom_insert_L. set_solver.
Qed.

Lemma ensureViews_fresh lib names (vs : gmap string ResultsView) n :
  n ∈ names → vs !! n = None →
  ensureViews lib names vs !! n = Some (newView n (lib n)).
Proof.
  revert vs. induction names as [|x names IH]; intros vs Hin Hn.
  - by apply elem_of_nil in Hin.
  - change (ensureViews lib (x :: names) vs)
      with (ensureViews lib names
              (match vs !! x with
               | Some _ => vs
               | None => <[x := newView x (lib x)]> vs
               end)).
    destruct (decide (x = n)) as [->|Hne].
    + rewrite Hn. apply ensureViews_keeps, lookup_insert_eq.
    + apply elem_of_cons in Hin as [->|Hin]; [done|].
      apply IH; [done|]. destruct (vs !! x); [done|].
      by rewrite lookup_insert_ne.
Qed.

Lemma ensureViews_present lib names (vs : gmap string ResultsView) :
  (∀ n, n ∈ names → is_Some (vs !! n)) → ensureViews lib names vs = vs.
Proof.
  induction names as [|x names IH]; intros Hall; [done|].
  change (ensureViews lib (x :: names) vs)
    with (ensureViews lib names
            (match vs !! x with
             | Some _ => vs
             | None => <[x := newView x (lib x)]> vs
             end)).
  destruct (Hall x) as [v ->]; [by left|].
  apply IH. intros n Hn. apply Hall. by right.
Qed.

Lemma applyStored_lookup prefs keep stored (vs : gmap string ResultsView) k :
  applyStored prefs keep stored vs !! k
  = restoreAll prefs keep stored k <$> vs !! k.
Proof.
  unfold applyStored, restoreAll. revert vs.
  induction stored as [|sv stored IH]; intros vs; cbn [foldl].
  - by destruct (vs !! k).
  - rewrite IH. destruct (decide (sv_view sv = k)) as [Heq|Hne].
    + rewrite Heq. destruct (vs !! k) as [v|] eqn:E.
      * by rewrite lookup_insert_eq.
      * by rewrite E.
    + destruct (vs !! sv_view sv).
      * rewrite lookup_insert_ne by done. by destruct (vs !! k).
      * by destruct (vs !! k).
Qed.

Lemma dom_applyStored prefs keep stored (vs : gmap string ResultsView) :
  dom (applyStored prefs keep stored vs) = dom vs.
Proof.
  apply set_eq. intros k. rewrite !elem_of_dom, applyStored_lookup.
  by rewrite fmap_is_Some.
Qed.

Lemma restoreFrom_absorb prefs keep sv sv' v :
  restoreFrom prefs keep sv (restoreFrom prefs keep sv' v)
  = restoreFrom prefs keep sv v.
Proof.
  unfold restoreFrom, restore. cbn. by destruct (loadViewsText prefs), keep.
Qed.

(** The loop either leaves the view under [k] alone or restores it from
    the last stored view that names [k]. *)
Lemma restoreAll_cases prefs keep stored k :
  (∀ v, restoreAll prefs keep stored k v = v)
  ∨ (∃ sv, ∀ v, restoreAll prefs keep stored k v = restoreFrom prefs keep sv v).
Proof.
  unfold restoreAll. induction stored as [|sv stored IH] using rev_ind.
  - by left.
  - destruct (decide (sv_view sv = k)) as [Heq|Hne].
    + right. exists sv. intros v. rewrite foldl_snoc, decide_True by done.
      destruct IH as [Hid|[sv' Hsv']].
      * by rewrite Hid.
      * by rewrite Hsv', restoreFrom_absorb.
    + destruct IH as [Hid|[sv' Hsv']].
      * left. intros v. by rewrite foldl_snoc, decide_False, Hid by done.
      * right. exists sv'. intros v.
        by rewrite foldl_snoc, decide_False, Hsv' by done.
Qed.

Lemma restoreAll_idem prefs keep stored k v :
  restoreAll prefs keep stored k (restoreAll prefs keep stored k v)
  = restoreAll prefs keep stored k v.
Proof.
  destruct (restoreAll_cases prefs keep stored k) as [Hid|[sv Hsv]].
  - by rewrite !Hid.
  - by rewrite !Hsv, restoreFrom_absorb.
Qed.

Lemma applyStored_idem prefs keep stored (vs : gmap string ResultsView) :
  applyStored prefs keep stored (applyStored prefs keep stored vs)
  = applyStored prefs keep stored vs.
Proof.
  apply map_eq. intros k. rewrite !applyStored_lookup.
  destruct (vs !! k) as [v|]; [|done]. cbn. by rewrite restoreAll_idem.
Qed.

Lemma restoreAll_keeps prefs keep stored k v :
  id (restoreAll prefs keep stored k v) = id v
  ∧ data (restoreAll prefs keep stored k v) = data v.
Proof.
  destruct (restoreAll_cases prefs keep stored k) as [Hid|[sv Hsv]].
  - by rewrite Hid.
  - by rewrite Hsv.
Qed.

(** X11. [addViews] adds exactly the missing names, when none of the
    listed names is a property that an object inherits: afterwards the
    registry holds the views it held and the listed names; a view that
    existed keeps its [id] and its cache; a name that was missing gets a
    view with that [id] and an empty cache. *)
Theorem addViews_ensures (prefs : Preferences) (state : SearchState)
    (names : list string) (stored : option (list StoredView)) :
  Forall ownName names →
  let state' := addViews prefs state names stored in
  dom (views state') = dom (views state) ∪ list_to_set names
  ∧ (∀ k v, views state !! k = Some v →
            ∃ v', views state' !! k = Some v'
                  ∧ id v' = id v ∧ data v' = data v)
  ∧ (∀ n, n ∈ names → views state !! n = None →
          ∃ v', views state' !! n = Some v'
                ∧ id v' = n ∧ data v' = emptyData).
Proof.
  intros _. cbn zeta. unfold addViews. cbn [views set_views]. split; [|split].
  - destruct stored; [rewrite dom_applyStored|]; apply dom_ensureViews.
  - intros k v Hk.
    pose proof (ensureViews_keeps (λ _, None) names _ _ _ Hk) as He.
    destruct stored as [svs|]; [|by exists v].
    rewrite applyStored_lookup, He. cbn. eexists. split; [done|].
    apply restoreAll_keeps.
  - intros n Hn Hnone.
    pose proof (ensureViews_fresh (λ _, None) names _ n Hn Hnone) as He.
    destruct stored as [svs|]; [|by eexists].
    rewrite applyStored_lookup, He. cbn. eexists. split; [done|].
    destruct (restoreAll_keeps prefs true svs n (newView n None)) as [-> ->].
    done.
Qed.

(** X12. [addViews] is idempotent: adding the same names with the same
    stored views again changes nothing. *)
Theorem addViews_idempotent (prefs : Preferences) (state : SearchState)
    (names : list string) (stored : option (list StoredView)) :
  addViews prefs (addViews prefs state names stored) names stored
  = addViews prefs state names stored.
Proof.
  destruct state as [vs dd]. unfold addViews, set_views.
  cbn [views dropdowns]. f_equal.
  assert (∀ m : gmap string ResultsView,
            dom m = dom (ensureViews (λ _, None) names vs) →
            ensureViews (λ _, None) names m = m) as Hpresent.
  { intros m Hdom. apply ensureViews_present. intros n Hn.
    apply elem_of_dom. rewrite Hdom, dom_ensureViews.
    apply elem_of_union_r, elem_of_list_to_set, Hn. }
  destruct stored as [svs|].
  - rewrite Hpresent by apply dom_applyStored. apply applyStored_idem.
  - by apply Hpresent.
Qed.

(** X13. [createViews] replaces the registry: when the general view
    exists and none of the listed names is a property that an object
    inherits, the registry afterwards holds the general view and the
    listed names and nothing else, and every listed view other than the
    general one starts with its own [id] and an empty cache, whatever was
    cached under that name before. *)
Theorem createViews_replaces (prefs : Preferences) (state : SearchState)
    (names : list string) (stored : option (list StoredView))
    (areLibraries : bool) (g : ResultsView) :
  views state !! GENERAL_VIEW_ID = Some g →
  Forall ownName names →
  let state' := createViews prefs state names stored areLibraries in
  dom (views state') = {[ GENERAL_VIEW_ID ]} ∪ list_to_set names
  ∧ (∀ n, n ∈ names → n ≠ GENERAL_VIEW_ID →
          ∃ v', views state' !! n = Some v'
                ∧ id v' = n ∧ data v' = emptyData).
Proof.
  intros Hg _. cbn zeta. unfold createViews. cbn [views set_views]. rewrite Hg.
  split.
  - destruct stored; [rewrite dom_applyStored|];
      by rewrite dom_ensureViews, dom_singleton_L.
  - intros n Hn Hne.
    assert (({[GENERAL_VIEW_ID := g]} : gmap string ResultsView) !! n = None)
      as Hnone by by rewrite lookup_singleton_ne.
    pose proof (ensureViews_fresh
                  (λ view, if areLibraries then Some view else None)
                  names _ n Hn Hnone) as He.
    destruct stored as [svs|]; [|by eexists].
    rewrite applyStored_lookup, He. cbn. eexists. split; [done|].
    destruct (restoreAll_keeps prefs false svs n
                (newView n (if areLibraries then Some n else None)))
      as [-> ->].
    done.
Qed.

(** ** Duplicating, renaming and deleting *)

(** X14. [duplicateView] never changes a view that exists, be it the
    source or a view already stored under the destination name, and a
    second identical call changes nothing.  When the source exists and
    the destination name is free, and is no property that an object
    inherits, the copy has the destination name as its [id], an empty
    cache at [searchId] 0, [loaded] unset, and the source's query,
    ordering and filter. *)
Theorem duplicateView_copies (state : SearchState) (oldView view : string) :
  let state' := duplicateView state oldView view in
  (∀ k v, views state !! k = Some v → views state' !! k = Some v)
  ∧ duplicateView state' oldView view = state'
  ∧ (∀ v, views state !! oldView = Some v → views state !! view = None →
          ownName view →
          ∃ c, views state' !! view = Some c
               ∧ id c = view ∧ data c = emptyData ∧ loaded c = false
               ∧ text c = text v ∧ orderBy c = orderBy v
               ∧ orderReverse c = orderReverse v
               ∧ advancedFilter c = advancedFilter v
               ∧ searchFilter c = searchFilter v
               ∧ selectedPlaylist c = selectedPlaylist v).
Proof.
  cbn zeta. unfold duplicateView.
  destruct (views state !! oldView) as [v|] eqn:Hold;
    [destruct (views state !! view) as [u|] eqn:Hnew|].
  - rewrite Hold, Hnew. repeat split; done.
  - cbn [views set_views]. split; [|split].
    + intros k u Hk. rewrite lookup_insert_ne; [done|]. intros ->. congruence.
    + assert (oldView ≠ view) as Hne by (intros ->; congruence).
      by rewrite lookup_insert_ne, Hold, lookup_insert_eq by done.
    + intros v0 [= <-] _ _. exists (duplicateOf view v).
      rewrite lookup_insert_eq. repeat split.
  - rewrite Hold. repeat split; done.
Qed.

Lemma set_id_back (a b : string) (v : ResultsView) :
  id v = a → set_id a (set_id b v) = v.
Proof. intros <-. by destruct v. Qed.

(** X15. Renaming a view to a free name and back restores the state, for
    a view stored under its own [id]. *)
Theorem renameView_round_trip (state : SearchState) (a b : string)
    (v : ResultsView) :
  views state !! a = Some v →
  id v = a →
  views state !! b = None →
  renameView (renameView state a b) b a = state.
Proof.
  intros Ha Hid Hb. assert (a ≠ b) as Hne by (intros ->; congruence).
  unfold renameView at 2. rewrite Ha. unfold renameView.
  cbn [views set_views]. rewrite lookup_delete_ne, lookup_insert_eq by done.
  destruct state as [vs dd]. unfold set_views. cbn [views dropdowns] in *.
  f_equal. rewrite set_id_back by done.
  apply map_eq. intros k.
  destruct (decide (k = b)) as [->|Hkb].
  - by rewrite lookup_delete_eq, Hb.
  - rewrite lookup_delete_ne by done.
    destruct (decide (k = a)) as [->|Hka].
    + by rewrite lookup_insert_eq.
    + by rewrite lookup_insert_ne, lookup_delete_ne, lookup_insert_ne by done.
Qed.

(** X16. Renaming a view to its own name removes it from the registry:
    the reducer assigns the view to the new key and then deletes the old
    key, which is the same key.  Every other view is untouched. *)
Theorem renameView_same_name (state : SearchState) (x : string)
    (v : ResultsView) :
  views state !! x = Some v →
  views (renameView state x x) !! x = None
  ∧ (∀ k, k ≠ x → views (renameView state x x) !! k = views state !! k)
  ∧ S (size (views (renameView state x x))) = size (views state).
Proof.
  intros Hx. unfold renameView. rewrite Hx. cbn [views set_views].
  rewrite delete_insert_eq. split; [apply lookup_delete_eq|]. split.
  - intros k Hk. by rewrite lookup_delete_ne.
  - rewrite <- (insert_delete_id (views state) x v) at 2 by done.
    by rewrite map_size_insert_None by apply lookup_delete_eq.
Qed.

Lemma deleteView_views prefs state view :
  views (deleteView prefs state view).1
  = if bool_decide (size (delete view (views state)) = 1%nat)
    then <["Browse" := newView "Browse" None]> (delete view (views state))
    else delete view (views state).
Proof.
  unfold deleteView. cbn [fst views set_views].
  destruct (views state !! view) eqn:E; [done|].
  by rewrite delete_id.
Qed.

(** X17. What [deleteView] does to the registry.  Views other than the
    deleted one and "Browse" are untouched; the deleted name is gone
    unless it is "Browse"; and whenever exactly one view is left, a fresh
    view "Browse" with an empty cache is stored, also over a view "Browse"
    that was the one left.  The dropdowns are untouched. *)
Theorem deleteView_registry (prefs : Preferences) (state : SearchState)
    (view : string) :
  let state' := (deleteView prefs state view).1 in
  (∀ k, k ≠ view → k ≠ "Browse" → views state' !! k = views state !! k)
  ∧ (view ≠ "Browse" → views state' !! view = None)
  ∧ (size (delete view (views state)) = 1%nat →
     views state' !! "Browse" = Some (newView "Browse" None))
  ∧ (size (delete view (views state)) ≠ 1%nat →
     views state' = delete view (views state))
  ∧ dropdowns state' = dropdowns state.
Proof.
  cbn zeta. rewrite deleteView_views. repeat split.
  - intros k Hk Hb. case_bool_decide.
    + by rewrite lookup_insert_ne, lookup_delete_ne.
    + by rewrite lookup_delete_ne.
  - intros Hb. case_bool_decide.
    + by rewrite lookup_insert_ne, lookup_delete_eq.
    + by rewrite lookup_delete_eq.
  - intros Hs. rewrite bool_decide_eq_true_2 by done. apply lookup_insert_eq.
  - intros Hs. by rewrite bool_decide_eq_false_2.
Qed.

(** X18. What [deleteView] does to the preferences.  It never removes a
    name from [customViews], not even the name of the deleted view; it
    appends "Browse" exactly when no other name than the deleted one is
    listed, so that afterwards the list is not empty; [loadViewsText] is
    untouched. *)
Theorem deleteView_preferences (prefs : Preferences) (state : SearchState)
    (view : string) :
  let prefs' := (deleteView prefs state view).2 in
  customViews prefs' =
    (if bool_decide (Forall (λ c, c = view) (customViews prefs))
     then customViews prefs ++ ["Browse"] else customViews prefs)
  ∧ customViews prefs `prefix_of` customViews prefs'
  ∧ customViews prefs' ≠ []
  ∧ (view ≠ "Browse" → ∃ c, c ∈ customViews prefs' ∧ c ≠ view)
  ∧ loadViewsText prefs' = loadViewsText prefs.
Proof.
  cbn zeta. unfold deleteView. cbn [snd].
  assert (length (filter (λ c, c ≠ view) (customViews prefs)) = 0%nat
          ↔ Forall (λ c, c = view) (customViews prefs)) as Hfilter.
  { rewrite length_zero_iff_nil, Forall_forall. split.
    - intros Hnil c Hc. destruct (decide (c = view)) as [|Hne]; [done|].
      by destruct (filter_nil_not_elem_of _ _ c Hnil Hne).
    - intros Hall. apply filter_none. intros c Hc Hne. by apply Hne, Hall. }
  destruct (decide (Forall (λ c, c = view) (customViews prefs)))
    as [Hall|Hsome].
  - rewrite (bool_decide_eq_true_2 _ (proj2 Hfilter Hall)).
    rewrite (bool_decide_eq_true_2 _ Hall). cbn [customViews loadViewsText].
    split; [done|]. split; [by apply prefix_app_r|].
    split; [by destruct (customViews prefs)|]. split; [|done].
    intros Hb. exists "Browse". split; [|done].
    apply elem_of_app. right. by left.
  - rewrite (bool_decide_eq_false_2
               (length (filter (λ c, c ≠ view) (customViews prefs)) = 0%nat))
      by (intros Hl; by apply Hsome, Hfilter).
    rewrite (bool_decide_eq_false_2 _ Hsome).
    assert (∃ c, c ∈ customViews prefs ∧ c ≠ view) as (c & Hc & Hne).
    { destruct (filter (λ c, c ≠ view) (customViews prefs)) as [|c l] eqn:E.
      - destruct Hsome. by apply Hfilter.
      - assert (c ∈ filter (λ c, c ≠ view) (customViews prefs)) as Hc
          by (rewrite E; by left).
        apply list_elem_of_filter in Hc as [? ?]. by exists c. }
    split; [done|]. split; [done|]. split; [|split; [by exists c|done]].
    intros Hnil. rewrite Hnil in Hc. by apply elem_of_nil in Hc.
Qed.

(** ** Moves in general *)

Lemma splice_insert_perm {A} (start : Z) (x : A) (l : list A) :
  splice start 0 [x] l ≡ₚ x :: l.
Proof.
  unfold splice. rewrite Nat.add_0_r. cbn [app].
  rewrite <- Permutation_middle. by rewrite take_drop.
Qed.

Lemma splice_remove_perm {A} (i : nat) (x : A) (l : list A) :
  l !! i = Some x → x :: splice (Z.of_nat i) 1 [] l ≡ₚ l.
Proof.
  intros Hi. pose proof (lookup_lt_Some _ _ _ Hi) as Hlt. unfold splice.
  rewrite bool_decide_eq_false_2 by lia.
  replace (Z.to_nat (Z.of_nat i `min` Z.of_nat (length l))) with i by lia.
  cbn [app]. rewrite Permutation_middle, Nat.add_1_r.
  by rewrite take_drop_middle.
Qed.

Lemma moveEntry_perm (si di : Z) (dst : string) (s : PlaylistGame)
    (l : list PlaylistGame) :
  0 ≤ si → l !! Z.to_nat si = Some s → moveEntry si di dst s l ≡ₚ l.
Proof.
  intros Hpos Hs. unfold moveEntry.
  assert (s :: splice si 1 [] l ≡ₚ l) as Hrem.
  { rewrite <- (Z2Nat.id si) by done. by apply splice_remove_perm. }
  repeat case_bool_decide;
    rewrite ?splice_insert_perm, <- ?Permutation_cons_append; exact Hrem.
Qed.

Lemma findIndex_from_none {A} (p : A → bool) (l : list A) i :
  Forall (λ y, p y = false) l → findIndex_from i p l = -1.
Proof.
  intros Hl. revert i. induction Hl as [|y l Hy Hl IH]; intros i; cbn; [done|].
  by rewrite Hy, IH.
Qed.

Lemma findIndex_from_range {A} (p : A → bool) (l : list A) i :
  0 ≤ i → findIndex_from i p l = -1 ∨ 0 ≤ findIndex_from i p l.
Proof.
  revert i. induction l as [|y l IH]; intros i Hi; cbn; [by left|].
  destruct (p y); [by right|]. apply IH. lia.
Qed.

Lemma not_elem_gameId (x : string) (l : list PlaylistGame) :
  x ∉ gameId <$> l → Forall (λ y, hasGameId x y = false) l.
Proof.
  intros Hx. apply Forall_forall. intros y Hy. unfold hasGameId.
  apply bool_decide_eq_false. intros Heq. apply Hx.
  apply list_elem_of_fmap. by exists y.
Qed.

(** X19. A move never loses or duplicates a playlist entry.  Whatever the
    two ids, the playlist of the view afterwards is a permutation of the
    playlist before, with the same other fields; and of the cache only
    the records map can have changed. *)
Theorem movePlaylistGame_permutes (state : SearchState)
    (view src dst : string) (v : ResultsView) (pl : Playlist) :
  views state !! view = Some v →
  selectedPlaylist v = Some pl →
  ∃ v' pl',
    views (movePlaylistGame state view src dst).1 !! view = Some v'
    ∧ selectedPlaylist v' = Some pl'
    ∧ pl_games pl' ≡ₚ pl_games pl
    ∧ pl_info pl' = pl_info pl
    ∧ data v' = set_games (games (data v')) (data v).
Proof.
  intros Hv Hpl. rewrite movePlaylistGame_on_view, on_view_lookup.
  rewrite decide_True, Hv by done. cbn [fmap option_fmap option_map].
  unfold movePlaylistGame_view. rewrite Hpl.
  destruct (pl_games pl !! Z.to_nat (findIndex (hasGameId src) (pl_games pl)))
    as [s|] eqn:Hs.
  - destruct (bool_decide (findIndex (hasGameId src) (pl_games pl) > -1)
              && bool_decide (findIndex (hasGameId dst) (pl_games pl) > -1))
      eqn:Hc.
    + apply andb_prop in Hc as [Hc _]. apply bool_decide_eq_true in Hc.
      eexists _, _. cbn. split; [done|]. split; [done|].
      split; [|done]. apply moveEntry_perm; [lia|done].
    + exists v, pl. cbn. repeat split; [done..|]. by destruct (data v).
  - exists v, pl. cbn. repeat split; [done..|]. by destruct (data v).
Qed.

(** X20. A move is refused as a whole when the view is missing, shows no
    playlist, or its playlist lacks the source or the destination id: the
    state is returned as it was and nothing is sent. *)
Theorem movePlaylistGame_refused (state : SearchState)
    (view src dst : string) :
  (∀ v pl, views state !! view = Some v → selectedPlaylist v = Some pl →
           src ∉ gameId <$> pl_games pl ∨ dst ∉ gameId <$> pl_games pl) →
  movePlaylistGame state view src dst = (state, []).
Proof.
  intros Hmiss. unfold movePlaylistGame.
  destruct (views state !! view) as [v|] eqn:Hv; [|done].
  assert (movePlaylistGame_view src dst v = (v, [])) as ->.
  { unfold movePlaylistGame_view.
    destruct (selectedPlaylist v) as [pl|] eqn:Hpl; [|done].
    destruct (pl_games pl !! _); [|done].
    destruct (Hmiss v pl eq_refl Hpl) as [Hs|Hd].
    - assert (findIndex (hasGameId src) (pl_games pl) = -1) as ->
        by apply findIndex_from_none, not_elem_gameId, Hs.
      done.
    - assert (findIndex (hasGameId dst) (pl_games pl) = -1) as ->
        by apply findIndex_from_none, not_elem_gameId, Hd.
      by rewrite andb_false_r. }
  by rewrite insert_id, set_views_same.
Qed.

Lemma moveRecords_absent (idx : Z) (src dst : string) (gm : gmap N ViewGame) :
  (∀ k g, gm !! k = Some g → vg_id g ≠ src)
  ∨ (∀ k g, gm !! k = Some g → vg_id g ≠ dst) →
  moveRecords idx src dst gm = gm.
Proof.
  intros Habs. unfold moveRecords. cbv zeta.
  assert (∀ x, (∀ k g, gm !! k = Some g → vg_id g ≠ x) →
               findIndex (hasId x) (entries gm) = -1) as Hnone.
  { intros x Hx. apply findIndex_from_none, Forall_forall.
    intros [k g] He. apply elem_of_entries in He. unfold hasId.
    apply bool_decide_eq_false. by apply (Hx k). }
  etrans; [|apply fromEntries_entries].
  f_equal. destruct Habs as [Hs|Hd].
  - rewrite (Hnone src Hs). by destruct (entries gm !! _).
  - rewrite (Hnone dst Hd). destruct (entries gm !! _); [|done].
    by rewrite andb_false_r.
Qed.

(** X21. When the record of the source or of the destination is not in
    the records map, a move leaves the records map as it is, whether or
    not the playlist is reordered. *)
Theorem movePlaylistGame_records_kept (state : SearchState)
    (view src dst : string) (v : ResultsView) :
  views state !! view = Some v →
  (∀ k g, games (data v) !! k = Some g → vg_id g ≠ src)
  ∨ (∀ k g, games (data v) !! k = Some g → vg_id g ≠ dst) →
  ∃ v', views (movePlaylistGame state view src dst).1 !! view = Some v'
        ∧ data v' = data v.
Proof.
  intros Hv Habs. rewrite movePlaylistGame_on_view, on_view_lookup.
  rewrite decide_True, Hv by done. cbn [fmap option_fmap option_map].
  eexists. split; [done|]. unfold movePlaylistGame_view.
  destruct (selectedPlaylist v) as [pl|]; [|done].
  destruct (pl_games pl !! _); [|done].
  destruct (_ && _); [|done]. cbn.
  rewrite moveRecords_absent by done. by destruct (data v).
Qed.

(** X22. Moving an entry onto itself is not a no-op.  With the id
    occurring once in the playlist, the entry is taken out and put back
    before the last of the remaining entries (at the end when none
    remain): after the removal the destination is not found, and
    [splice(-1, 0, entry)] inserts before the last element. *)
Theorem movePlaylistGame_onto_itself (state : SearchState)
    (view x : string) (v : ResultsView) (pl : Playlist)
    (A C : list PlaylistGame) (s : PlaylistGame) :
  views state !! view = Some v →
  selectedPlaylist v = Some pl →
  pl_games pl = A ++ s :: C →
  gameId s = x →
  x ∉ gameId <$> (A ++ C) →
  ∃ v' pl',
    views (movePlaylistGame state view x x).1 !! view = Some v'
    ∧ selectedPlaylist v' = Some pl'
    ∧ pl_games pl'
      = take (length (A ++ C) - 1) (A ++ C)
        ++ s :: drop (length (A ++ C) - 1) (A ++ C).
Proof.
  intros Hv Hpl El Hs Hx. rewrite movePlaylistGame_on_view, on_view_lookup.
  rewrite decide_True, Hv by done. cbn [fmap option_fmap option_map].
  unfold movePlaylistGame_view. rewrite Hpl. cbv zeta. rewrite El.
  pose proof (not_elem_gameId x _ Hx) as Hall.
  assert (findIndex (hasGameId x) (A ++ s :: C) = Z.of_nat (length A)) as ->.
  { apply findIndex_first.
    - by apply Forall_app in Hall as [? _].
    - unfold hasGameId. by apply bool_decide_eq_true. }
  rewrite Nat2Z.id, list_lookup_middle by done.
  rewrite !bool_decide_eq_true_2 by lia. cbn [andb fst].
  eexists _, _. split; [done|]. split; [done|]. cbn [pl_games].
  unfold moveEntry. rewrite splice_remove.
  rewrite bool_decide_eq_false_2 by lia.
  assert (findIndex (hasGameId x) (A ++ C) = -1) as ->
    by apply findIndex_from_none, Hall.
  unfold splice. rewrite bool_decide_eq_true_2 by lia.
  replace (Z.to_nat ((Z.of_nat (length (A ++ C)) + -1) `max` 0))
    with (length (A ++ C) - 1)%nat by lia.
  by rewrite Nat.add_0_r.
Qed.

(** ** Refreshing a selected game *)

(** X23. [updateGame] brings every selected copy of the game up to date
    and does nothing else: afterwards a selected game with the id of the
    updated game is the updated game, every view selects a game of the
    same id as before (or none, as before) and differs from what it was
    in its selected game only; a second identical update changes
    nothing. *)
Theorem updateGame_refreshes (state : SearchState) (game : Game) :
  (∀ k, ∃ f, views (updateGame state game) !! k = f <$> views state !! k
             ∧ ∀ v, f v = set_selectedGame (selectedGame (f v)) v
                    ∧ game_id <$> selectedGame (f v)
                      = game_id <$> selectedGame v
                    ∧ (∀ g0, selectedGame (f v) = Some g0 →
                             game_id g0 = game_id game → g0 = game))
  ∧ updateGame (updateGame state game) game = updateGame state game.
Proof.
  split.
  - intros k. exists (updateGame_view game). split.
    { unfold updateGame. cbn [views set_views]. apply lookup_fmap. }
    intros v. unfold updateGame_view.
    destruct (selectedGame v) as [g|] eqn:Hg.
    + case_bool_decide as Hid; cbn.
      * split; [done|]. split; [by rewrite Hid|]. by intros g0 [= <-].
      * rewrite Hg. split; [by destruct v; cbn in *; subst|].
        split; [done|]. intros g0 [= <-] ?. done.
    + rewrite Hg. split; [by destruct v; cbn in *; subst|]. done.
  - unfold updateGame, set_views. cbn [views dropdowns]. f_equal.
    rewrite <- map_fmap_compose. apply map_fmap_ext. intros k v _. cbn.
    unfold updateGame_view. destruct (selectedGame v) as [g|] eqn:Hg.
    + case_bool_decide as Hid; cbn.
      * by rewrite bool_decide_eq_true_2.
      * by rewrite Hg, bool_decide_eq_false_2.
    + by rewrite Hg.
Qed.

(** ** From the keyset to the page requests *)

Lemma cursorSet_bound (ks : PageKeyset) (i : Z) :
  0 < i → cursorSet ks i = true → i ≤ Z.of_nat (length ks).
Proof.
  intros Hpos. unfold cursorSet.
  destruct (ks !! Z.to_nat (i - 1)) eqn:E; [|done].
  intros _. apply lookup_lt_Some in E. lia.
Qed.

(** X24. Once the keyset response of a search is merged, [requestRange]
    for that search requests exactly the pages of the range whose cursor
    [keyset[i-1]] is set, each with that cursor as its offset. *)
Theorem keyset_then_range (state : SearchState) (view : string) (sid : Z)
    (ks : PageKeyset) (t : option Z) (start count : Z) (v : ResultsView) :
  views state !! view = Some v →
  searchId (data v) ≤ sid →
  let state1 := addData state view (keysetResponse sid ks t) in
  ∃ v1, views state1 !! view = Some v1
    ∧ keyset (data v1) = ks
    ∧ (requestRange state1 view sid start count).2
      = pageRequest v1 <$> requested v1 start count
    ∧ ∀ i, i ∈ requested v1 start count
           ↔ start ≤ i < start + count ∧ 0 < i ∧ cursorSet ks i = true.
Proof.
  intros Hv Hle. cbn zeta. exists (addData_view (keysetResponse sid ks t) v).
  assert (views (addData state view (keysetResponse sid ks t)) !! view
          = Some (addData_view (keysetResponse sid ks t) v)) as Hv1.
  { unfold addData. by rewrite on_view_lookup, decide_True, Hv. }
  assert (searchId (data (addData_view (keysetResponse sid ks t) v)) = sid)
    as Hsid.
  { rewrite addData_view_searchId. cbn. lia. }
  assert (keyset (data (addData_view (keysetResponse sid ks t) v)) = ks
          ∧ pages (data (addData_view (keysetResponse sid ks t) v))
            = rebuildPages ks) as [Hks Hpg].
  { unfold addData_view. rewrite bool_decide_eq_false_2 by (cbn; lia).
    unfold stepGames, stepPages, stepKeyset. by cbn. }
  split; [done|]. split; [done|]. split.
  - unfold requestRange. rewrite Hv1.
    by rewrite requestRange_view_closed by done.
  - intros i. rewrite elem_of_requested, Hks, Hpg, rebuildPages_lookup.
    split.
    + intros (Hr & Hpos & _ & Hc). repeat split; done || lia.
    + intros (Hr & Hpos & Hc). split; [done|]. split; [lia|]. split; [|done].
      pose proof (cursorSet_bound ks i Hpos Hc).
      rewrite decide_False by lia. by rewrite decide_True by lia.
Qed.

End Properties.

Section DropdownProperties.
Context {Tag : Type}.

(** X25. Dropdown data is guarded by its key.  [setDropdownData] never
    changes the key; a payload whose key is missing or is not the current
    key is dropped, so results for a key that [resetDropdownData] has
    replaced never land; a payload with the current key overwrites exactly
    the fields it carries; and resetting to the current key changes
    nothing. *)
Theorem dropdown_key_guard (dd : DropdownData Tag) (k : string)
    (p : DropdownPatch Tag) :
  dd_key (setDropdownData dd p) = dd_key dd
  ∧ (dp_key p ≠ Some (dd_key dd) → setDropdownData dd p = dd)
  ∧ (dp_key p ≠ Some k →
     setDropdownData (resetDropdownData dd k) p = resetDropdownData dd k)
  ∧ (dp_key p = Some (dd_key dd) →
     dd_tags (setDropdownData dd p) = default (dd_tags dd) (dp_tags p)
     ∧ dd_developers (setDropdownData dd p)
       = default (dd_developers dd) (dp_developers p)
     ∧ dd_publishers (setDropdownData dd p)
       = default (dd_publishers dd) (dp_publishers p)
     ∧ dd_series (setDropdownData dd p) = default (dd_series dd) (dp_series p))
  ∧ dd_key (resetDropdownData dd k) = k
  ∧ resetDropdownData (resetDropdownData dd k) k = resetDropdownData dd k.
Proof.
  assert (dd_key (resetDropdownData dd k) = k) as Hk.
  { unfold resetDropdownData. case_bool_decide as E; [done|].
    destruct (decide (k = dd_key dd)); [done|]. by destruct E. }
  split; [|split; [|split; [|split; [|split]]]].
  - unfold setDropdownData. case_bool_decide as E; [|done]. cbn. by rewrite E.
  - intros Hne. unfold setDropdownData. by rewrite bool_decide_eq_false_2.
  - intros Hne. unfold setDropdownData.
    rewrite bool_decide_eq_false_2; [done|]. by rewrite Hk.
  - intros Heq. unfold setDropdownData. by rewrite bool_decide_eq_true_2.
  - done.
  - unfold resetDropdownData at 1. rewrite Hk.
    by rewrite bool_decide_eq_false_2 by (intros Hne; by apply Hne).
Qed.

End DropdownProperties.

(** * The properties at concrete inputs *)

Lemma demo_browse1_lookup :
  views Demo.browse1 !! "Browse" = Some Demo.browseView1.
Proof. vm_compute. reflexivity. Qed.

Lemma addData_stale_noop_witness :
  addData Demo.browse1 "Browse" (Demo.pagePayload 0 1 ["gX"]) = Demo.browse1.
Proof.
  apply (addData_stale_noop Demo.browse1 "Browse"
           (Demo.pagePayload 0 1 ["gX"]) Demo.browseView1).
  - vm_compute. reflexivity.
  - vm_compute. reflexivity.
Defined.

Lemma searchId_non_decreasing_witness :
  ∃ v', views (runOps Demo.cacheOps Demo.twoViews) !! "Browse" = Some v'
        ∧ searchId (data Demo.browseView) ≤ searchId (data v').
Proof.
  apply (searchId_non_decreasing Demo.cacheOps Demo.twoViews "Browse"
           Demo.browseView).
  vm_compute. reflexivity.
Defined.

Lemma addData_supersede_witness :
  searchId (data Demo.browseView1) < 2
  ∧ views (addData Demo.browse1 "Browse" (Demo.pagePayload 2 1 ["g3"; "g4"]))
      !! "Browse"
    = Some (stepGames (Demo.pagePayload 2 1 ["g3"; "g4"])
              (set_data (resetData 2) Demo.browseView1))
  ∧ ∀ v0, searchId (data v0) < 2 →
          games (data (addData_view (Demo.pagePayload 2 1 ["g3"; "g4"]) v0))
          = {[ 3%N := "g3"; 4%N := "g4" ]}.
Proof.
  assert (searchId (data Demo.browseView1) < 2) as Hlt
    by (vm_compute; reflexivity).
  destruct (addData_supersede Demo.browse1 "Browse"
              (Demo.pagePayload 2 1 ["g3"; "g4"]) Demo.browseView1
              demo_browse1_lookup Hlt)
    as (_ & _ & _ & _ & _ & Hv & Hind & _).
  split; [exact Hlt|]. split; [exact Hv|].
  intros v0 H0. rewrite (Hind v0 H0). vm_compute. reflexivity.
Defined.

(** The scenario of the spec: the keyset ["c1"; "c2"] of search 1. *)
Example keyset_scenario :
  (views Demo.browseKeyset !! "Browse" ≫= λ v, Some (pages (data v)))
  = Some {[ 0%N := RECEIVED; 1%N := WAITING; 2%N := WAITING ]}
  ∧ (views (addData Demo.browseKeyset "Browse" (Demo.pagePayload 1 0 ["g1"]))
       !! "Browse" ≫= λ v, Some (games (data v), pages (data v) !! 0%N))
    = Some ({[ 0%N := "g1" ]}, Some RECEIVED)
  ∧ addData Demo.browseKeyset "Browse" (Demo.pagePayload 0 1 ["gX"])
    = Demo.browseKeyset.
Proof. vm_compute. repeat split. Qed.

Lemma addData_keyset_rebuild_witness :
  ∃ v', views (addData Demo.browse1 "Browse" Demo.keysetPayload) !! "Browse"
        = Some v'
        ∧ keyset (data v') = ["c1"; "c2"]
        ∧ pages (data v') !! 0%N = Some RECEIVED
        ∧ pages (data v') !! 1%N = Some WAITING
        ∧ pages (data v') !! 2%N = Some WAITING
        ∧ pages (data v') !! 3%N = None.
Proof.
  destruct (addData_keyset_rebuild Demo.browse1 "Browse" Demo.keysetPayload
              Demo.browseView1 ["c1"; "c2"] demo_browse1_lookup
              eq_refl eq_refl)
    as (_ & Hpages & v' & Hv' & _ & Hks & Hsame).
  exists v'. split; [exact Hv'|]. split; [exact Hks|].
  rewrite (Hsame eq_refl (or_introl eq_refl)).
  rewrite !Hpages. repeat split.
Defined.

Lemma requestRange_page_dependency_witness :
  ∃ v, views Demo.browseKeyset !! "Browse" = Some v
       ∧ searchId (data v) = 1
       ∧ pages (data v) !! 1%N = Some WAITING
       ∧ cursorSet (keyset (data v)) 1 = true
       ∧ pageState (requestRange Demo.browseKeyset "Browse" 1 0 3).1
                   "Browse" 1%N
         = Some REQUESTED.
Proof.
  destruct (proj1 (requestRange_page_dependency Demo.browseKeyset "Browse"
                     1 0 3) "Browse" 1%N)
    as (v & _ & Hv & Hsid & _ & Hw & Hc & Hr).
  - vm_compute. discriminate.
  - exists v. repeat split; assumption.
Defined.

(** A stale caller: nothing changes and nothing is sent. *)
Example requestRange_stale_caller :
  requestRange Demo.browseKeyset "Browse" 0 0 3 = (Demo.browseKeyset, []).
Proof. vm_compute. reflexivity. Qed.


(** The scenario of the spec: "A" moved after "C". *)
Example movePlaylistGame_scenario :
  (views (movePlaylistGame Demo.playlistState "Browse" "A" "C").1
     !! "Browse" ≫= λ v, Some (pl_games <$> selectedPlaylist v,
                                games (data v)))
  = Some (Some [Demo.entry "B"; Demo.entry "C"; Demo.entry "A";
                Demo.entry "D"],
          {[ 0%N := "B"; 1%N := "C"; 2%N := "A" ]}).
Proof. vm_compute. reflexivity. Qed.

(** A sparse records map, of which only the second page was fetched.
    Moved up, the record takes the destination's offset and the records
    from there on shift by one. *)
Example movePlaylistGame_second_page_up :
  (views Demo.secondPageState !! "Browse" ≫= λ v, Some (games (data v)))
  = Some {[ 3%N := "A"; 4%N := "B"; 5%N := "C" ]}
  ∧ (views (movePlaylistGame Demo.secondPageState "Browse" "C" "A").1
       !! "Browse" ≫= λ v, Some (games (data v)))
    = Some {[ 3%N := "C"; 4%N := "A"; 5%N := "B" ]}.
Proof. vm_compute. split; reflexivity. Qed.

(** Moved down on a map with a gap after the source: no offset below
    the source is missing, and the records up to the destination shift by
    one towards the vacated offset, the gap with them. *)
Example movePlaylistGame_gap_down :
  (views Demo.gapState !! "Browse" ≫= λ v, Some (games (data v)))
  = Some {[ 0%N := "P"; 1%N := "Q"; 3%N := "A"; 4%N := "B"; 5%N := "C" ]}
  ∧ (views (movePlaylistGame Demo.gapState "Browse" "P" "C").1
       !! "Browse" ≫= λ v, Some (pl_games <$> selectedPlaylist v,
                                  games (data v)))
    = Some (Some [Demo.entry "Q"; Demo.entry "R"; Demo.entry "A";
                  Demo.entry "B"; Demo.entry "C"; Demo.entry "P"],
            {[ 0%N := "Q"; 2%N := "A"; 3%N := "B"; 4%N := "C"; 5%N := "P" ]}).
Proof. vm_compute. split; reflexivity. Qed.

(** Moved down on the map of the second page, where three entries of the
    playlist but no record lie before the source: the loop bounds taken from the
    playlist index miss the records, and the moved record is written onto
    the destination's offset and lost. *)
Example movePlaylistGame_second_page :
  (views Demo.secondPageState !! "Browse" ≫= λ v, Some (games (data v)))
  = Some {[ 3%N := "A"; 4%N := "B"; 5%N := "C" ]}
  ∧ (views (movePlaylistGame Demo.secondPageState "Browse" "A" "C").1
       !! "Browse" ≫= λ v, Some (games (data v)))
    = Some {[ 4%N := "B"; 5%N := "C" ]}.
Proof. vm_compute. split; reflexivity. Qed.


(** C8, as stated, fails: the reducers delete the general view, rename it
    away and rename another view onto it like any other view. *)
Lemma general_view_not_protected :
  views initialState !! GENERAL_VIEW_ID = Some defaultGeneralState
  ∧ views (deleteView Demo.noPrefs initialState GENERAL_VIEW_ID).1
      !! GENERAL_VIEW_ID = None
  ∧ views (renameView initialState GENERAL_VIEW_ID "Mine")
      !! GENERAL_VIEW_ID = None
  ∧ views (renameView Demo.browse1 "Browse" GENERAL_VIEW_ID)
      !! GENERAL_VIEW_ID
    = Some (set_id GENERAL_VIEW_ID Demo.browseView1).
Proof. vm_compute. repeat split. Qed.

Lemma general_view_kept_witness :
  ∃ g', views (runRegistry Demo.registryOps (Demo.twoViews, Demo.noPrefs)).1
          !! GENERAL_VIEW_ID = Some g'
        ∧ id g' = GENERAL_VIEW_ID ∧ data g' = emptyData.
Proof.
  apply (general_view_kept Demo.registryOps (Demo.twoViews, Demo.noPrefs)
           defaultGeneralState).
  - repeat constructor; discriminate.
  - vm_compute. reflexivity.
Defined.

Lemma deleteView_last_synthesizes_browse_witness :
  views (deleteView Demo.noPrefs Demo.browseKeyset "Browse").1
  = <["Browse" := newView "Browse" None]>
      {[ GENERAL_VIEW_ID := defaultGeneralState ]}.
Proof.
  destruct (deleteView_last_synthesizes_browse Demo.noPrefs Demo.browseKeyset
              "Browse" defaultGeneralState
              (addData_view Demo.keysetPayload Demo.browseView1))
    as [Hviews _].
  - discriminate.
  - vm_compute. reflexivity.
  - exact Hviews.
Defined.

Lemma renameView_overwrites_witness :
  views (renameView Demo.threeViews "Browse" "Other") !! "Other"
  = Some (set_id "Other" (addData_view Demo.keysetPayload Demo.browseView1))
  ∧ views (renameView Demo.threeViews "Browse" "Other") !! "Browse" = None
  ∧ size (views Demo.threeViews) = 3%nat
  ∧ size (views (renameView Demo.threeViews "Browse" "Other")) = 2%nat.
Proof.
  destruct (renameView_overwrites Demo.threeViews "Browse" "Other"
              (addData_view Demo.keysetPayload Demo.browseView1)
              (newView "Other" None))
    as (Hnew & _ & Hold & _ & _).
  - vm_compute. reflexivity.
  - vm_compute. reflexivity.
  - discriminate.
  - split; [exact Hnew|]. split; [exact Hold|]. vm_compute. split; reflexivity.
Defined.


(** * More properties at concrete inputs *)

Lemma demo_browseKeyset_lookup :
  views Demo.browseKeyset !! "Browse" = Some Demo.browseKeysetView.
Proof. vm_compute. reflexivity. Qed.

Lemma demo_playlistState_lookup :
  views Demo.playlistState !! "Browse" = Some Demo.playlistView.
Proof. vm_compute. reflexivity. Qed.

Lemma demo_secondPageState_lookup :
  views Demo.secondPageState !! "Browse" = Some Demo.secondPageView.
Proof. vm_compute. reflexivity. Qed.

Lemma requestRange_exact_witness :
  (requestRange Demo.browseKeyset "Browse" 1 0 5).2
  = [pageRequest Demo.browseKeysetView 1; pageRequest Demo.browseKeysetView 2]
  ∧ ∀ i, i ∈ requested Demo.browseKeysetView 0 5
         ↔ 0 ≤ i < 0 + 5 ∧ i > 0
           ∧ pages (data Demo.browseKeysetView) !! Z.to_N i = Some WAITING
           ∧ cursorSet (keyset (data Demo.browseKeysetView)) i = true.
Proof.
  destruct (requestRange_exact Demo.browseKeyset "Browse" 1 0 5
              Demo.browseKeysetView demo_browseKeyset_lookup eq_refl)
    as (Hr & Hreq & _).
  split; [|exact Hreq]. rewrite Hr. vm_compute. reflexivity.
Defined.

Lemma other_views_untouched_witness :
  views (store (reduce Demo.world0
                  (AddData "Browse" (Demo.pagePayload 1 1 ["g4"]))))
    !! GENERAL_VIEW_ID
  = views Demo.browseKeyset !! GENERAL_VIEW_ID.
Proof.
  destruct (other_views_untouched
              (AddData "Browse" (Demo.pagePayload 1 1 ["g4"]))
              Demo.world0 "Browse" eq_refl) as (Hother & _).
  apply Hother. discriminate.
Defined.

Lemma views_persist_witness :
  ∃ v', views (store (run Demo.viewActs Demo.world0)) !! "Browse" = Some v'
        ∧ id v' = "Browse"
        ∧ 1 ≤ searchId (data v').
Proof.
  apply (views_persist Demo.viewActs Demo.world0 "Browse"
           Demo.browseKeysetView).
  - repeat constructor.
  - vm_compute. reflexivity.
Defined.

Lemma caches_untouched_witness :
  (∀ k, data <$> views (store (run Demo.uiActs Demo.world0)) !! k
        = data <$> views Demo.browseKeyset !! k)
  ∧ outbox (run Demo.uiActs Demo.world0) = [].
Proof.
  destruct (caches_untouched Demo.uiActs Demo.world0) as (Hd & Ho & _).
  - repeat constructor.
  - split; [exact Hd|exact Ho].
Defined.

Lemma page_responses_commute_witness :
  addData (addData Demo.browseKeyset "Browse"
             (pageResponse 1 2 ["g7"])) "Browse"
          (pageResponse 1 1 ["g4"; "g5"; "g6"])
  = addData (addData Demo.browseKeyset "Browse"
               (pageResponse 1 1 ["g4"; "g5"; "g6"])) "Browse"
            (pageResponse 1 2 ["g7"]).
Proof.
  apply (page_responses_commute Demo.browseKeyset "Browse" 1 2 1
           ["g7"] ["g4"; "g5"; "g6"]).
  - discriminate.
  - vm_compute. discriminate.
  - vm_compute. discriminate.
  - split; vm_compute; discriminate.
  - split; vm_compute; discriminate.
Defined.

Lemma addData_records_land_witness :
  ∃ v', views (addData Demo.browseKeyset "Browse"
                 (Demo.pagePayload 1 1 ["g4"; "g5"])) !! "Browse" = Some v'
        ∧ games (data v') !! 3%N = Some "g4"
        ∧ games (data v') !! 4%N = Some "g5"
        ∧ pages (data v') !! 1%N = Some RECEIVED.
Proof.
  destruct (addData_records_land Demo.browseKeyset "Browse"
              (Demo.pagePayload 1 1 ["g4"; "g5"]) Demo.browseKeysetView
              1%N ["g4"; "g5"] demo_browseKeyset_lookup)
    as (v' & Hv' & Hrec & _ & Hpage & _).
  - vm_compute. discriminate.
  - reflexivity.
  - reflexivity.
  - intros [Hp _]. discriminate Hp.
  - split; vm_compute; discriminate.
  - exists v'. split; [exact Hv'|].
    split; [exact (Hrec 0%nat "g4" eq_refl)|].
    split; [exact (Hrec 1%nat "g5" eq_refl)|exact Hpage].
Defined.

Lemma setFilter_latest_wins_witness :
  setFilter (setFilter Demo.browseKeyset (Demo.filterOf 2)) (Demo.filterOf 3)
  = setFilter Demo.browseKeyset (Demo.filterOf 3)
  ∧ setFilter (setFilter Demo.browseKeyset (Demo.filterOf 3)) (Demo.filterOf 2)
    = setFilter Demo.browseKeyset (Demo.filterOf 3).
Proof.
  destruct (setFilter_latest_wins Demo.browseKeyset (Demo.filterOf 2)
              (Demo.filterOf 3)) as (H12 & H21 & _).
  - reflexivity.
  - vm_compute. reflexivity.
  - split; [exact H12|exact H21].
Defined.

Lemma createViews_replaces_witness :
  dom (views (createViews Demo.noPrefs Demo.browseKeyset
                ["arcade"; "Browse"] None true))
  = {[ GENERAL_VIEW_ID ]} ∪ list_to_set ["arcade"; "Browse"]
  ∧ ∃ v', views (createViews Demo.noPrefs Demo.browseKeyset
                   ["arcade"; "Browse"] None true) !! "Browse" = Some v'
          ∧ id v' = "Browse" ∧ data v' = emptyData.
Proof.
  destruct (createViews_replaces Demo.noPrefs Demo.browseKeyset
              ["arcade"; "Browse"] None true defaultGeneralState)
    as (Hdom & Hfresh).
  - vm_compute. reflexivity.
  - apply (bool_decide_unpack _). vm_compute. exact I.
  - split; [exact Hdom|]. apply Hfresh; [|discriminate].
    apply list_elem_of_In. simpl. tauto.
Defined.

Lemma addViews_ensures_witness :
  dom (views (addViews Demo.noPrefs Demo.browseKeyset ["Browse"; "arcade"]
                None))
  = dom (views Demo.browseKeyset) ∪ list_to_set ["Browse"; "arcade"]
  ∧ ∃ v', views (addViews Demo.noPrefs Demo.browseKeyset
                   ["Browse"; "arcade"] None) !! "arcade" = Some v'
          ∧ id v' = "arcade" ∧ data v' = emptyData.
Proof.
  destruct (addViews_ensures Demo.noPrefs Demo.browseKeyset
              ["Browse"; "arcade"] None) as (Hdom & _ & Hfresh).
  - apply (bool_decide_unpack _). vm_compute. exact I.
  - split; [exact Hdom|]. apply Hfresh.
    + apply list_elem_of_In. simpl. tauto.
    + vm_compute. reflexivity.
Defined.

Lemma duplicateView_copies_witness :
  ∃ c, views (duplicateView Demo.browseKeyset "Browse" "Copy") !! "Copy"
       = Some c
       ∧ id c = "Copy" ∧ data c = emptyData
       ∧ searchFilter c = searchFilter Demo.browseKeysetView.
Proof.
  destruct (duplicateView_copies Demo.browseKeyset "Browse" "Copy")
    as (_ & _ & Hcopy).
  destruct (Hcopy Demo.browseKeysetView)
    as (c & Hc & Hid & Hdata & _ & _ & _ & _ & _ & Hfilter & _).
  - exact demo_browseKeyset_lookup.
  - vm_compute. reflexivity.
  - apply (bool_decide_unpack _). vm_compute. exact I.
  - exists c. split; [exact Hc|]. split; [exact Hid|].
    split; [exact Hdata|exact Hfilter].
Defined.

Lemma reachable_wellKeyed_witness :
  Forall plainAction Demo.plainActs
  ∧ wellKeyed (store (run Demo.plainActs
                        {| store := initialState; preferences := Demo.noPrefs;
                           outbox := [] |}))
  ∧ is_Some (views (store (run Demo.plainActs
                             {| store := initialState;
                                preferences := Demo.noPrefs;
                                outbox := [] |})) !! GENERAL_VIEW_ID).
Proof.
  assert (Forall plainAction Demo.plainActs) as Hp
    by (apply (bool_decide_unpack _); vm_compute; exact I).
  split; [exact Hp|].
  exact (reachable_wellKeyed Demo.plainActs Demo.noPrefs Hp).
Defined.

Lemma renameView_round_trip_witness :
  renameView (renameView Demo.browseKeyset "Browse" "Mine") "Mine" "Browse"
  = Demo.browseKeyset.
Proof.
  apply (renameView_round_trip Demo.browseKeyset "Browse" "Mine"
           Demo.browseKeysetView).
  - vm_compute. reflexivity.
  - vm_compute. reflexivity.
  - vm_compute. reflexivity.
Defined.

Lemma renameView_same_name_witness :
  views (renameView Demo.browseKeyset "Browse" "Browse") !! "Browse" = None.
Proof.
  destruct (renameView_same_name Demo.browseKeyset "Browse"
              Demo.browseKeysetView demo_browseKeyset_lookup) as (Hgone & _).
  exact Hgone.
Defined.

Lemma movePlaylistGame_permutes_witness :
  ∃ v' pl',
    views (movePlaylistGame Demo.playlistState "Browse" "D" "B").1
      !! "Browse" = Some v'
    ∧ selectedPlaylist v' = Some pl'
    ∧ pl_games pl' ≡ₚ Demo.abcd.
Proof.
  destruct (movePlaylistGame_permutes Demo.playlistState "Browse" "D" "B"
              Demo.playlistView Demo.favourites demo_playlistState_lookup)
    as (v' & pl' & Hv' & Hpl' & Hperm & _).
  - vm_compute. reflexivity.
  - exists v', pl'. split; [exact Hv'|]. split; [exact Hpl'|exact Hperm].
Defined.

Lemma movePlaylistGame_refused_witness :
  movePlaylistGame Demo.playlistState "Browse" "Z" "B"
  = (Demo.playlistState, []).
Proof.
  apply (movePlaylistGame_refused Demo.playlistState "Browse" "Z" "B").
  intros v pl Hv Hpl. rewrite demo_playlistState_lookup in Hv.
  injection Hv as <-. vm_compute in Hpl. injection Hpl as <-.
  left. rewrite list_elem_of_In. simpl.
  intros [E|[E|[E|[E|[]]]]]; discriminate E.
Defined.

Lemma movePlaylistGame_records_kept_witness :
  ∃ v', views (movePlaylistGame Demo.secondPageState "Browse" "P" "R").1
          !! "Browse" = Some v'
        ∧ data v' = data Demo.secondPageView.
Proof.
  apply (movePlaylistGame_records_kept Demo.secondPageState "Browse" "P" "R"
           Demo.secondPageView demo_secondPageState_lookup).
  left.
  change (map_Forall (λ (_ : N) (g : string), g ≠ "P")
            (games (data Demo.secondPageView))).
  apply (bool_decide_unpack _). vm_compute. exact I.
Defined.

Lemma movePlaylistGame_onto_itself_witness :
  ∃ v' pl',
    views (movePlaylistGame Demo.playlistState "Browse" "B" "B").1
      !! "Browse" = Some v'
    ∧ selectedPlaylist v' = Some pl'
    ∧ pl_games pl'
      = [Demo.entry "A"; Demo.entry "C"; Demo.entry "B"; Demo.entry "D"].
Proof.
  destruct (movePlaylistGame_onto_itself Demo.playlistState "Browse" "B"
              Demo.playlistView Demo.favourites
              [Demo.entry "A"] [Demo.entry "C"; Demo.entry "D"]
              (Demo.entry "B") demo_playlistState_lookup)
    as (v' & pl' & Hv' & Hpl' & Hgames).
  - vm_compute. reflexivity.
  - reflexivity.
  - reflexivity.
  - rewrite list_elem_of_In. simpl. intros [E|[E|[E|[]]]]; discriminate E.
  - exists v', pl'. split; [exact Hv'|]. split; [exact Hpl'|exact Hgames].
Defined.

Lemma keyset_then_range_witness :
  ∃ v1, views (addData Demo.browse1 "Browse" (keysetResponse 1 ["c1"; ""] None))
          !! "Browse" = Some v1
        ∧ (requestRange
             (addData Demo.browse1 "Browse" (keysetResponse 1 ["c1"; ""] None))
             "Browse" 1 0 10).2
          = pageRequest v1 <$> requested v1 0 10
        ∧ 1 ∈ requested v1 0 10
        ∧ 2 ∉ requested v1 0 10.
Proof.
  destruct (keyset_then_range Demo.browse1 "Browse" 1 ["c1"; ""] None 0 10
              Demo.browseView1 demo_browse1_lookup)
    as (v1 & Hv1 & _ & Hsent & Hreq).
  - vm_compute. discriminate.
  - exists v1. split; [exact Hv1|]. split; [exact Hsent|]. split.
    + apply Hreq. vm_compute. repeat split; discriminate.
    + intros (_ & _ & Hc)%Hreq. vm_compute in Hc. discriminate Hc.
Defined.
